(** * Retire On BTC: simulation core and recommendation optimizer

    A shallow embedding of [src/simulation.py] and of the optimizer of
    [src/main.py] ([_recommend_adjustments]).

    Numbers.  The Python code computes in float32/float64.  The simulators
    are modelled over exact rationals [Q] (the float32 casts are dropped);
    the return-factor generator, which needs [log1p] and [exp], is modelled
    over the reals extended with the IEEE values [-inf], [+inf] and [NaN].
    numpy arrays of shape [(n_sims, years)] are lists of rows; per-simulation
    vectors that numpy updates elementwise are lists with one entry per
    simulation. *)

From Stdlib Require Import String Ascii DecimalString.
From Stdlib Require Import List ZArith QArith Qround Qabs Qpower Lqa Lia Bool.
From Stdlib Require Reals Lra.
Import ListNotations.

Open Scope Z_scope.

(* ------------------------------------------------------------------ *)
(** ** Python / numpy helpers over [Q] *)

Definition qltb (a b : Q) : bool := negb (Qle_bool b a).

(** Python's builtin [max(a, b)]: keeps [a] unless [b > a]. *)
Definition py_max (a b : Q) : Q := if qltb a b then b else a.

(** [np.maximum(a, b)] on one element. *)
Definition np_maximum (a b : Q) : Q := if Qle_bool b a then a else b.

Fixpoint zip_with {A B C} (f : A -> B -> C) (xs : list A) (ys : list B) : list C :=
  match xs, ys with
  | x :: xs', y :: ys' => f x y :: zip_with f xs' ys'
  | _, _ => []
  end.

Fixpoint count_true (bs : list bool) : nat :=
  match bs with
  | [] => 0
  | b :: bs' => (if b then 1 else 0) + count_true bs'
  end%nat.

Definition bool_frac (bs : list bool) : Q :=
  inject_Z (Z.of_nat (count_true bs)) / inject_Z (Z.of_nat (length bs)).

(** [np.mean] of a boolean array; [None] is the NaN numpy returns for an
    empty array. *)
Definition np_mean_bool (bs : list bool) : option Q :=
  match bs with
  | [] => None
  | _ => Some (bool_frac bs)
  end.

(** Python slices [xs[k:]] and [xs[:k]], negative [k] counting from the end. *)
Definition py_slice_from {A} (k : Z) (xs : list A) : list A :=
  if 0 <=? k then skipn (Z.to_nat k) xs
  else skipn (Z.to_nat (Z.of_nat (length xs) + k)) xs.

Definition py_slice_to {A} (k : Z) (xs : list A) : list A :=
  if 0 <=? k then firstn (Z.to_nat k) xs
  else firstn (Z.to_nat (Z.of_nat (length xs) + k)) xs.

(** [np.cumprod] along a row. *)
Fixpoint cumprod_acc (acc : Q) (r : list Q) : list Q :=
  match r with
  | [] => []
  | x :: r' => (acc * x)%Q :: cumprod_acc (acc * x)%Q r'
  end.

Definition np_cumprod (r : list Q) : list Q := cumprod_acc 1 r.

(** *** [np.percentile] with its default [method="linear"] *)

Fixpoint insert_q (x : Q) (l : list Q) : list Q :=
  match l with
  | [] => [x]
  | y :: l' => if Qle_bool x y then x :: l else y :: insert_q x l'
  end.

Fixpoint sort_q (l : list Q) : list Q :=
  match l with
  | [] => []
  | x :: l' => insert_q x (sort_q l')
  end.

(** numpy's [_lerp(a, b, t)]: two formulas, chosen by [t >= 0.5]. *)
Definition lerp (a b t : Q) : Q :=
  if Qle_bool (1 # 2) t then (b - (b - a) * (1 - t))%Q else (a + (b - a) * t)%Q.

(** [np.percentile(xs, p)]: virtual index [(p/100)(n-1)], previous and next
    indices clipped to [[0, n-1]], linear interpolation.  [None] marks
    where numpy raises (empty array, or [p] outside [[0, 100]]); the Python
    loop stops there, while [simulate_percentiles_and_prob] below records
    the mark and goes on, so a series containing [None] stands for a raise
    of the Python function. *)
Definition np_percentile (xs : list Q) (p : Z) : option Q :=
  if orb (p <? 0) (100 <? p) then None else
  match xs with
  | [] => None
  | _ =>
    let s := sort_q xs in
    let n := length s in
    let vi := (inject_Z p / 100 * inject_Z (Z.of_nat n - 1))%Q in
    let prev := Qfloor vi in
    let gamma := (vi - inject_Z prev)%Q in
    let i := Nat.min (Z.to_nat prev) (n - 1) in
    let j := Nat.min (i + 1) (n - 1) in
    Some (lerp (nth i s 0%Q) (nth j s 0%Q) gamma)
  end.

(* ------------------------------------------------------------------ *)
(** ** Path simulator ([simulate_holdings_paths], [simulate_percentiles_and_prob]) *)

(** A return-factor matrix: [rf_rows] has one row per simulation, each row
    [rf_years] long (numpy's [n_sims, years = rf.shape]). *)
Record Mat := mkMat { rf_rows : list (list Q); rf_years : nat }.

Definition mat_wf (rf : Mat) : Prop :=
  Forall (fun r => length r = rf_years rf) (rf_rows rf).

(** [rf[:, t]]. *)
Definition column (rf : Mat) (t : nat) : list Q :=
  map (fun r => nth t r 0%Q) (rf_rows rf).

(** The scenario parameters both simulators receive. *)
Record SimArgs := mkArgs {
  current_age : Z;
  retirement_age : Z;
  current_holdings : Q;
  monthly_investment : Q;
  monthly_spending : Q;
  tax_rate : Q;
  current_bitcoin_price : Q
}.

Definition years_until_retirement (a : SimArgs) : Z :=
  retirement_age a - current_age a.

(** [gross = 1 / max(1e-6, 1 - tax_rate / 100)]. *)
Definition gross_up (tax : Q) : Q :=
  (1 / py_max (1 # 1000000) (1 - tax / 100))%Q.

(** *** [simulate_percentiles_and_prob] *)

(** Per-simulation entries of the streaming vectors [price], [h], [alive]. *)
Record SimState := mkState { st_price : Q; st_h : Q; st_alive : bool }.

(** One year [t] of the loop body for one simulation with factor [f]
    ([rf[i, t]]): holdings update at the start-of-year price, then the
    price grows by [f]. *)
Definition stream_update (a : SimArgs) (gross : Q) (t : nat)
    (s : SimState) (f : Q) : SimState :=
  if Z.of_nat t <? years_until_retirement a then
    mkState (st_price s * f)%Q
            (st_h s + monthly_investment a * 12 / st_price s)%Q
            (st_alive s)
  else
    let h' := np_maximum (st_h s - monthly_spending a * 12 * gross / st_price s)%Q 0%Q in
    mkState (st_price s * f)%Q h' (st_alive s && qltb 0 h').

Definition Series := list (Z * list (option Q)).

(** [for p in percentiles: pct_series[f"p{p}"].append(...)]; keys are the
    percentile levels. *)
Definition pct_append (vals : list Q) (series : Series) : Series :=
  map (fun '(p, xs) => (p, xs ++ [np_percentile vals p])) series.

Fixpoint stream_years (rf : Mat) (a : SimArgs) (gross : Q) (ts : list nat)
    (st : list SimState) (series : Series) : list SimState * Series :=
  match ts with
  | [] => (st, series)
  | t :: ts' =>
    let st' := zip_with (stream_update a gross t) st (column rf t) in
    let vals := map (fun s => st_h s * st_price s)%Q st' in
    stream_years rf a gross ts' st' (pct_append vals series)
  end.

Definition simulate_percentiles_and_prob (rf : Mat) (a : SimArgs)
    (percentiles : list Z) : Series * option Q :=
  let n_sims := length (rf_rows rf) in
  let years := rf_years rf in
  let st0 := repeat (mkState (current_bitcoin_price a) (current_holdings a) true) n_sims in
  let series0 := map (fun p => (p, [])) percentiles in
  let gross := gross_up (tax_rate a) in
  let '(st, series) := stream_years rf a gross (seq 0 years) st0 series0 in
  (series,
   if years_until_retirement a <? Z.of_nat years
   then np_mean_bool (map st_alive st) else Some 1%Q).

Definition default_percentiles : list Z := [10; 25; 50].

(** *** [simulate_holdings_paths] *)

(** Row [i] of [prices = price * np.cumprod(rf, axis=1)]. *)
Definition path_prices (a : SimArgs) (r : list Q) : list Q :=
  map (Qmult (current_bitcoin_price a)) (np_cumprod r).

Definition invest_btc (a : SimArgs) (prices : list Q) : list Q :=
  if 0 <? years_until_retirement a
  then map (fun p => monthly_investment a * 12 / p)%Q
           (py_slice_to (years_until_retirement a) prices)
  else [].

Definition spend_btc (a : SimArgs) (gross : Q) (years : nat) (prices : list Q) : list Q :=
  if years_until_retirement a <? Z.of_nat years
  then map (fun p => monthly_spending a * 12 * gross / p)%Q
           (py_slice_from (years_until_retirement a) prices)
  else [].

(** The body of [for t in range(years)] for one row. *)
Definition path_step (a : SimArgs) (inv sp : list Q) (t : nat) (h : Q) : Q :=
  if Z.of_nat t <? years_until_retirement a then (h + nth t inv 0)%Q
  else
    let idx := Z.of_nat t - years_until_retirement a in
    if idx <? Z.of_nat (length sp)
    then np_maximum (h - nth (Z.to_nat idx) sp 0)%Q 0%Q
    else h.

(** [holdings[i, t] = h] after each step. *)
Fixpoint path_loop (a : SimArgs) (inv sp : list Q) (ts : list nat) (h : Q) : list Q :=
  match ts with
  | [] => []
  | t :: ts' => let h' := path_step a inv sp t h in h' :: path_loop a inv sp ts' h'
  end.

Definition path_holdings (a : SimArgs) (gross : Q) (years : nat) (r : list Q) : list Q :=
  let prices := path_prices a r in
  path_loop a (invest_btc a prices) (spend_btc a gross years prices)
            (seq 0 years) (current_holdings a).

Definition simulate_holdings_paths (rf : Mat) (a : SimArgs) : list (list Q) * Q :=
  let years := rf_years rf in
  let gross := gross_up (tax_rate a) in
  let holdings := map (path_holdings a gross years) (rf_rows rf) in
  let prices := map (path_prices a) (rf_rows rf) in
  let after := map (py_slice_from (years_until_retirement a)) holdings in
  let size := fold_right (fun r acc => length r + acc)%nat 0%nat after in
  let prob := if Nat.ltb 0 size
              then bool_frac (map (forallb (qltb 0)) after) else 1%Q in
  (zip_with (zip_with Qmult) holdings prices, prob).

(* ------------------------------------------------------------------ *)
(** ** Basic facts about the helpers *)

Lemma qltb_true (a b : Q) : qltb a b = true <-> (a < b)%Q.
Proof.
  unfold qltb. rewrite negb_true_iff. split; intro H.
  - apply Qnot_le_lt. intro H'. apply Qle_bool_iff in H'. congruence.
  - destruct (Qle_bool b a) eqn:E; [|reflexivity].
    apply Qle_bool_iff in E. exfalso. apply (Qlt_not_le a b); assumption.
Qed.


Lemma np_maximum_of_nonneg (x : Q) : (0 <= x)%Q -> np_maximum x 0 = x.
Proof.
  intro H. unfold np_maximum. apply Qle_bool_iff in H. now rewrite H.
Qed.

Lemma np_maximum_mono (x y : Q) : (x <= y)%Q -> (np_maximum x 0 <= np_maximum y 0)%Q.
Proof.
  intro H. unfold np_maximum.
  destruct (Qle_bool 0 x) eqn:Ex, (Qle_bool 0 y) eqn:Ey;
    try apply Qle_bool_iff in Ex; try apply Qle_bool_iff in Ey.
  - exact H.
  - exfalso. assert (Hy : (0 <= y)%Q) by (apply Qle_trans with x; assumption).
    apply Qle_bool_iff in Hy. congruence.
  - exact Ey.
  - apply Qle_refl.
Qed.

Lemma py_max_ge_l (a b : Q) : (a <= py_max a b)%Q.
Proof.
  unfold py_max. destruct (qltb a b) eqn:E.
  - apply qltb_true in E. now apply Qlt_le_weak.
  - apply Qle_refl.
Qed.

Lemma py_max_mono_r (a b c : Q) : (b <= c)%Q -> (py_max a b <= py_max a c)%Q.
Proof.
  intro H. unfold py_max.
  destruct (qltb a b) eqn:E1, (qltb a c) eqn:E2;
    try apply qltb_true in E1; try apply qltb_true in E2.
  - exact H.
  - exfalso. assert (a < c)%Q by (apply Qlt_le_trans with b; assumption).
    apply qltb_true in H0. congruence.
  - now apply Qlt_le_weak.
  - apply Qle_refl.
Qed.

Lemma gross_up_pos (tax : Q) : (0 < gross_up tax)%Q.
Proof.
  unfold gross_up.
  assert (Hm : (1 # 1000000 <= py_max (1 # 1000000) (1 - tax / 100))%Q) by apply py_max_ge_l.
  apply Qlt_shift_div_l.
  - apply Qlt_le_trans with (1 # 1000000); [reflexivity | exact Hm].
  - rewrite Qmult_0_l. reflexivity.
Qed.

Lemma gross_up_le (tax : Q) : (gross_up tax <= 1000000)%Q.
Proof.
  unfold gross_up.
  assert (Hm : (1 # 1000000 <= py_max (1 # 1000000) (1 - tax / 100))%Q) by apply py_max_ge_l.
  apply Qle_shift_div_r.
  - apply Qlt_le_trans with (1 # 1000000); [reflexivity | exact Hm].
  - apply Qle_trans with (1000000 * (1 # 1000000))%Q; [unfold Qle; simpl; lia|].
    apply Qmult_le_l; [reflexivity | exact Hm].
Qed.

Lemma gross_up_mono (t1 t2 : Q) : (t1 <= t2)%Q -> (gross_up t1 <= gross_up t2)%Q.
Proof.
  intro H. unfold gross_up.
  set (m1 := py_max (1 # 1000000) (1 - t1 / 100)).
  set (m2 := py_max (1 # 1000000) (1 - t2 / 100)).
  assert (H21 : (m2 <= m1)%Q).
  { apply py_max_mono_r. unfold Qdiv.
    assert (t1 * / 100 <= t2 * / 100)%Q
      by (apply Qmult_le_compat_r; [exact H | discriminate]).
    lra. }
  assert (Hm2 : (0 < m2)%Q).
  { apply Qlt_le_trans with (1 # 1000000); [reflexivity | apply py_max_ge_l]. }
  assert (Hm1 : (0 < m1)%Q) by (apply Qlt_le_trans with m2; assumption).
  apply Qle_shift_div_r; [exact Hm1|].
  unfold Qdiv. rewrite Qmult_1_l.
  apply Qle_trans with (/ m2 * m2)%Q.
  - rewrite Qmult_comm, Qmult_inv_r; [apply Qle_refl|].
    intro E. rewrite E in Hm2. discriminate.
  - apply Qmult_le_l; [apply Qinv_lt_0_compat; exact Hm2 | exact H21].
Qed.

(** *** List plumbing *)

Lemma zip_with_Forall {A B C} (P : A -> Prop) (Qp : B -> Prop) (R : C -> Prop)
    (f : A -> B -> C) xs ys :
  Forall P xs -> Forall Qp ys -> (forall x y, P x -> Qp y -> R (f x y)) ->
  Forall R (zip_with f xs ys).
Proof.
  intros HP. revert ys. induction HP; intros ys HQ Hf; [constructor|].
  destruct ys as [|y0 ys]; [constructor|]. inversion HQ; subst.
  simpl. constructor; auto.
Qed.

Lemma zip_with_Forall2 {A B C D} (R : A -> B -> Prop) (Qp : C -> Prop)
    (R' : D -> D -> Prop) (f : A -> C -> D) (g : B -> C -> D) xs1 xs2 ys :
  Forall2 R xs1 xs2 -> Forall Qp ys ->
  (forall x1 x2 y, R x1 x2 -> Qp y -> R' (f x1 y) (g x2 y)) ->
  Forall2 R' (zip_with f xs1 ys) (zip_with g xs2 ys).
Proof.
  intros HR. revert ys. induction HR; intros ys HQ Hf; [constructor|].
  destruct ys as [|y0 ys]; [constructor|]. inversion HQ; subst.
  simpl. constructor; auto.
Qed.

Lemma zip_with_length {A B C} (f : A -> B -> C) xs ys :
  length (zip_with f xs ys) = Nat.min (length xs) (length ys).
Proof.
  revert ys; induction xs as [|x xs IH]; intros [|y ys]; simpl; auto.
Qed.


Lemma count_true_all (bs : list bool) :
  Forall (fun b => b = true) bs -> count_true bs = length bs.
Proof. induction 1; simpl; subst; auto. Qed.

Lemma count_true_mono (bs1 bs2 : list bool) :
  Forall2 (fun b1 b2 => b2 = true -> b1 = true) bs1 bs2 ->
  (count_true bs2 <= count_true bs1)%nat.
Proof.
  induction 1 as [|b1 b2 l1 l2 Hb _ IH]; simpl; [lia|].
  destruct b1, b2; simpl; try lia; discriminate (Hb eq_refl).
Qed.


Lemma bool_frac_all (bs : list bool) :
  bs <> [] -> Forall (fun b => b = true) bs -> (bool_frac bs == 1)%Q.
Proof.
  intros Hne Hall. unfold bool_frac. rewrite (count_true_all bs Hall).
  destruct bs as [|b bs]; [congruence|].
  simpl length. unfold Qdiv. apply Qmult_inv_r.
  intro E. apply Qeq_alt in E. discriminate.
Qed.

Lemma bool_frac_mono (bs1 bs2 : list bool) :
  Forall2 (fun b1 b2 => b2 = true -> b1 = true) bs1 bs2 ->
  (bool_frac bs2 <= bool_frac bs1)%Q.
Proof.
  intro H. pose proof (Forall2_length H) as Hl. pose proof (count_true_mono _ _ H) as Hc.
  unfold bool_frac. rewrite Hl.
  destruct (length bs2) as [|n].
  - unfold Qdiv. change (/ inject_Z (Z.of_nat 0))%Q with 0%Q.
    rewrite !Qmult_0_r. apply Qle_refl.
  - unfold Qdiv. apply Qmult_le_compat_r.
    + rewrite <- Zle_Qle. lia.
    + apply Qinv_le_0_compat. change 0%Q with (inject_Z 0). rewrite <- Zle_Qle. lia.
Qed.

Lemma Forall_nth_d {A} (P : A -> Prop) (l : list A) (d : A) (i : nat) :
  Forall P l -> P d -> P (nth i l d).
Proof.
  intros H Hd. revert i. induction H; intros [|i]; simpl; auto.
Qed.

Lemma Forall2_nth_d {A B} (R : A -> B -> Prop) l1 l2 d1 d2 (i : nat) :
  Forall2 R l1 l2 -> R d1 d2 -> R (nth i l1 d1) (nth i l2 d2).
Proof.
  intros H Hd. revert i. induction H; intros [|i]; simpl; auto.
Qed.

Lemma Forall_skipn' {A} (P : A -> Prop) (n : nat) (l : list A) :
  Forall P l -> Forall P (skipn n l).
Proof.
  revert l; induction n as [|n IH]; intros l H; [exact H|].
  destruct l; simpl; [constructor|]. inversion H; auto.
Qed.

Lemma Forall_firstn' {A} (P : A -> Prop) (n : nat) (l : list A) :
  Forall P l -> Forall P (firstn n l).
Proof.
  revert l; induction n as [|n IH]; intros l H; [constructor|].
  destruct l; simpl; [constructor|]. inversion H; subst; constructor; auto.
Qed.

Lemma Forall2_skipn' {A B} (R : A -> B -> Prop) (n : nat) l1 l2 :
  Forall2 R l1 l2 -> Forall2 R (skipn n l1) (skipn n l2).
Proof.
  revert l1 l2; induction n as [|n IH]; intros l1 l2 H; [exact H|].
  destruct H; simpl; [constructor|]. auto.
Qed.

Lemma py_slice_from_Forall {A} (P : A -> Prop) (k : Z) (l : list A) :
  Forall P l -> Forall P (py_slice_from k l).
Proof. intro H. unfold py_slice_from. destruct (0 <=? k); now apply Forall_skipn'. Qed.

Lemma py_slice_to_Forall {A} (P : A -> Prop) (k : Z) (l : list A) :
  Forall P l -> Forall P (py_slice_to k l).
Proof. intro H. unfold py_slice_to. destruct (0 <=? k); now apply Forall_firstn'. Qed.

Lemma py_slice_from_Forall2 {A B} (R : A -> B -> Prop) (k : Z) l1 l2 :
  Forall2 R l1 l2 -> Forall2 R (py_slice_from k l1) (py_slice_from k l2).
Proof.
  intro H. unfold py_slice_from. rewrite (Forall2_length H).
  destruct (0 <=? k); now apply Forall2_skipn'.
Qed.

Lemma div_nonneg (x p : Q) : (0 <= x)%Q -> (0 < p)%Q -> (0 <= x / p)%Q.
Proof.
  intros Hx Hp. apply Qle_shift_div_l; [exact Hp|]. now rewrite Qmult_0_l.
Qed.

Lemma div_pos (x p : Q) : (0 < x)%Q -> (0 < p)%Q -> (0 < x / p)%Q.
Proof.
  intros Hx Hp. apply Qlt_shift_div_l; [exact Hp|]. now rewrite Qmult_0_l.
Qed.

Lemma div_le_mono (x y p : Q) : (x <= y)%Q -> (0 < p)%Q -> (x / p <= y / p)%Q.
Proof.
  intros H Hp. unfold Qdiv. apply Qmult_le_compat_r; [exact H|].
  apply Qinv_le_0_compat. now apply Qlt_le_weak.
Qed.

(** The spending term [monthly_spending * 12 * gross / price] grows with
    [gross] when spending is non-negative and the price positive. *)
Lemma spend_term_mono (ms g1 g2 p : Q) :
  (0 <= ms)%Q -> (g1 <= g2)%Q -> (0 < p)%Q ->
  (ms * 12 * g1 / p <= ms * 12 * g2 / p)%Q.
Proof.
  intros Hms Hg Hp. apply div_le_mono; [|exact Hp]. nra.
Qed.

(** *** Invariants of the streaming loop *)

Definition mat_pos (rf : Mat) : Prop :=
  Forall (Forall (fun x => 0 < x)%Q) (rf_rows rf).

Lemma column_length (rf : Mat) (t : nat) : length (column rf t) = length (rf_rows rf).
Proof. unfold column. apply length_map. Qed.

Lemma column_pos (rf : Mat) (t : nat) :
  mat_wf rf -> mat_pos rf -> (t < rf_years rf)%nat ->
  Forall (fun f => 0 < f)%Q (column rf t).
Proof.
  unfold mat_wf, mat_pos, column. intros Hwf Hpos Ht.
  apply Forall_map. rewrite Forall_forall in *. intros r Hr.
  specialize (Hwf r Hr). specialize (Hpos r Hr). rewrite Forall_forall in Hpos.
  apply Hpos, nth_In. lia.
Qed.

Lemma stream_years_inv (P : nat -> SimState -> Prop) (Sv : Series -> Prop)
    (rf : Mat) (a : SimArgs) (g : Q) :
  forall n k st se,
  Forall (P k) st -> Sv se ->
  (forall t, (k <= t < k + n)%nat -> Forall (fun f => 0 < f)%Q (column rf t)) ->
  (forall t s f, (k <= t < k + n)%nat -> (0 < f)%Q -> P t s ->
     P (S t) (stream_update a g t s f)) ->
  (forall t sts se', (k <= t < k + n)%nat -> Forall (P (S t)) sts -> Sv se' ->
     Sv (pct_append (map (fun s => st_h s * st_price s)%Q sts) se')) ->
  Forall (P (k + n)%nat) (fst (stream_years rf a g (seq k n) st se)) /\
  Sv (snd (stream_years rf a g (seq k n) st se)).
Proof.
  induction n as [|n IH]; intros k st se Hst Hse Hcol Hstep Happ.
  - simpl. rewrite Nat.add_0_r. auto.
  - simpl. replace (k + S n)%nat with (S k + n)%nat by lia.
    assert (Hst' : Forall (P (S k)) (zip_with (stream_update a g k) st (column rf k))).
    { apply zip_with_Forall with (P := P k) (Qp := fun f => (0 < f)%Q); auto.
      - apply Hcol. lia.
      - intros s f Hs Hf. apply Hstep; auto. lia. }
    apply IH; auto.
    + apply (Happ k); auto. lia.
    + intros t Ht. apply Hcol. lia.
    + intros t s f Ht. apply Hstep. lia.
    + intros t sts se' Ht. apply (Happ t). lia.
Qed.

Lemma stream_years_rel (R : nat -> SimState -> SimState -> Prop)
    (rf : Mat) (a1 a2 : SimArgs) (g1 g2 : Q) :
  forall n k st1 st2 se1 se2,
  Forall2 (R k) st1 st2 ->
  (forall t, (k <= t < k + n)%nat -> Forall (fun f => 0 < f)%Q (column rf t)) ->
  (forall t s1 s2 f, (k <= t < k + n)%nat -> (0 < f)%Q -> R t s1 s2 ->
     R (S t) (stream_update a1 g1 t s1 f) (stream_update a2 g2 t s2 f)) ->
  Forall2 (R (k + n)%nat) (fst (stream_years rf a1 g1 (seq k n) st1 se1))
                          (fst (stream_years rf a2 g2 (seq k n) st2 se2)).
Proof.
  induction n as [|n IH]; intros k st1 st2 se1 se2 Hst Hcol Hstep.
  - simpl. rewrite Nat.add_0_r. exact Hst.
  - simpl. replace (k + S n)%nat with (S k + n)%nat by lia.
    apply IH.
    + apply zip_with_Forall2 with (R := R k) (Qp := fun f => (0 < f)%Q); auto.
      * apply Hcol. lia.
      * intros s1 s2 f Hs Hf. apply Hstep; auto. lia.
    + intros t Ht. apply Hcol. lia.
    + intros t s1 s2 f Ht. apply Hstep. lia.
Qed.

Lemma stream_years_length (rf : Mat) (a : SimArgs) (g : Q) :
  forall n k st se, length st = length (rf_rows rf) ->
  length (fst (stream_years rf a g (seq k n) st se)) = length (rf_rows rf).
Proof.
  induction n as [|n IH]; intros k st se Hl; simpl; [exact Hl|].
  apply IH. rewrite zip_with_length, column_length, Hl. lia.
Qed.

(** *** [np.percentile] of non-negative values is non-negative *)





(** *** Invariants of the full-matrix loop *)

Lemma path_loop_seq (R : nat -> Q -> Prop) (Qp : Q -> Prop) a inv sp :
  forall n k h, R k h ->
  (forall t x, (k <= t < k + n)%nat -> R t x ->
     R (S t) (path_step a inv sp t x) /\ Qp (path_step a inv sp t x)) ->
  Forall Qp (path_loop a inv sp (seq k n) h).
Proof.
  induction n as [|n IH]; intros k h Hk Hstep; simpl; [constructor|].
  destruct (Hstep k h ltac:(lia) Hk) as [HR HQ].
  constructor; [exact HQ|]. apply IH; [exact HR|].
  intros t x Ht. apply Hstep. lia.
Qed.

Lemma path_loop_rel a inv sp1 sp2 :
  forall ts h1 h2, (h2 <= h1)%Q ->
  (forall t x1 x2, (x2 <= x1)%Q -> (path_step a inv sp2 t x2 <= path_step a inv sp1 t x1)%Q) ->
  Forall2 (fun y1 y2 => y2 <= y1)%Q (path_loop a inv sp1 ts h1) (path_loop a inv sp2 ts h2).
Proof.
  induction ts as [|t ts IH]; intros h1 h2 Hh Hstep; simpl; constructor; auto.
Qed.

Lemma cumprod_acc_pos (acc : Q) (r : list Q) :
  (0 < acc)%Q -> Forall (fun x => 0 < x)%Q r -> Forall (fun x => 0 < x)%Q (cumprod_acc acc r).
Proof.
  intros Hacc Hr. revert acc Hacc. induction Hr as [|x r Hx Hr IH]; intros acc Hacc; simpl.
  - constructor.
  - assert (0 < acc * x)%Q by now apply Qmult_lt_0_compat. constructor; auto.
Qed.

Lemma path_prices_pos (a : SimArgs) (r : list Q) :
  (0 < current_bitcoin_price a)%Q -> Forall (fun x => 0 < x)%Q r ->
  Forall (fun x => 0 < x)%Q (path_prices a r).
Proof.
  intros Hp Hr. unfold path_prices, np_cumprod. apply Forall_map.
  apply Forall_impl with (P := fun x => (0 < x)%Q).
  - intros x Hx. now apply Qmult_lt_0_compat.
  - apply cumprod_acc_pos; [reflexivity | exact Hr].
Qed.

Lemma invest_btc_nonneg (a : SimArgs) (prices : list Q) :
  (0 <= monthly_investment a)%Q -> Forall (fun x => 0 < x)%Q prices ->
  Forall (fun x => 0 <= x)%Q (invest_btc a prices).
Proof.
  intros Hi Hp. unfold invest_btc. destruct (0 <? years_until_retirement a); [|constructor].
  apply Forall_map. apply py_slice_to_Forall.
  apply Forall_impl with (P := fun x => (0 < x)%Q); [|exact Hp].
  intros p Hp0. apply div_nonneg; [|exact Hp0].
  apply Qmult_le_0_compat; [exact Hi | discriminate].
Qed.




(** *** Non-negativity for the streaming simulator *)






(** *** Zero spending *)

Lemma spend_btc_zero (a : SimArgs) (g : Q) (years : nat) (prices : list Q) :
  (monthly_spending a == 0)%Q -> Forall (fun x => x == 0)%Q (spend_btc a g years prices).
Proof.
  intro Hms. unfold spend_btc. destruct (_ <? _); [|constructor].
  apply Forall_map. apply Forall_forall. intros p _.
  rewrite Hms. unfold Qdiv. rewrite !Qmult_0_l. reflexivity.
Qed.

Lemma invest_btc_first_pos (a : SimArgs) (p : Q) (ps : list Q) :
  (0 < monthly_investment a)%Q -> 0 < years_until_retirement a -> (0 < p)%Q ->
  (0 < nth 0 (invest_btc a (p :: ps)) 0)%Q.
Proof.
  intros Hi Hy Hp. unfold invest_btc, py_slice_to.
  destruct (0 <? years_until_retirement a) eqn:E; [|apply Z.ltb_ge in E; lia].
  destruct (0 <=? years_until_retirement a) eqn:E'; [|apply Z.leb_gt in E'; lia].
  destruct (Z.to_nat (years_until_retirement a)) as [|m] eqn:Em; [lia|].
  simpl. apply div_pos; [|exact Hp].
  apply Qmult_lt_0_compat; [exact Hi | reflexivity].
Qed.

Lemma path_holdings_pos_zero_spend (a : SimArgs) (g : Q) (years : nat) (r : list Q) :
  (monthly_spending a == 0)%Q ->
  (0 <= current_holdings a)%Q -> (0 <= monthly_investment a)%Q ->
  (0 < current_bitcoin_price a)%Q -> Forall (fun x => 0 < x)%Q r -> length r = years ->
  ((0 < current_holdings a)%Q \/ ((0 < monthly_investment a)%Q /\ 0 < years_until_retirement a)) ->
  Forall (fun x => 0 < x)%Q (path_holdings a g years r).
Proof.
  intros Hms Hh Hi Hp Hr Hlen Hstart. unfold path_holdings.
  set (prices := path_prices a r).
  pose proof (invest_btc_nonneg a prices Hi (path_prices_pos a r Hp Hr)) as Hinv.
  pose proof (spend_btc_zero a g years prices Hms) as Hsp.
  apply path_loop_seq with
    (R := fun t x => (0 <= x)%Q /\ ((0 < x)%Q \/
            (t = 0%nat /\ (0 < monthly_investment a)%Q /\ 0 < years_until_retirement a))).
  { split; [exact Hh|]. destruct Hstart as [H|H]; [left; exact H | right; tauto]. }
  intros t x Ht [Hx0 Hx].
  assert (Hpos : (0 < path_step a (invest_btc a prices) (spend_btc a g years prices) t x)%Q).
  { unfold path_step.
    destruct (Z.of_nat t <? years_until_retirement a) eqn:Et.
    - assert (Hn : (0 <= nth t (invest_btc a prices) 0)%Q)
        by (apply Forall_nth_d; [exact Hinv | apply Qle_refl]).
      destruct Hx as [Hx | (-> & Hmi & Hy)]; [lra|].
      destruct r as [|x0 r']; [simpl in Hlen; lia|].
      assert (0 < nth 0 (invest_btc a prices) 0)%Q.
      { unfold prices, path_prices, np_cumprod. simpl.
        apply invest_btc_first_pos; auto.
        apply Qmult_lt_0_compat; [exact Hp|]. inversion Hr; subst.
        rewrite Qmult_1_l. assumption. }
      lra.
    - apply Z.ltb_ge in Et.
      destruct Hx as [Hx | (-> & _ & Hy)]; [|lia].
      destruct (_ <? _); [|exact Hx].
      set (d := nth _ (spend_btc a g years prices) 0%Q).
      assert (Hd : (d == 0)%Q) by (apply Forall_nth_d; [exact Hsp | reflexivity]).
      rewrite np_maximum_of_nonneg; lra. }
  split; [split; [now apply Qlt_le_weak | left; exact Hpos] | exact Hpos].
Qed.

Lemma stream_alive_zero_spend (rf : Mat) (a : SimArgs) (pcts : list Z) :
  mat_wf rf -> mat_pos rf ->
  (monthly_spending a == 0)%Q -> (0 <= current_holdings a)%Q -> (0 <= monthly_investment a)%Q ->
  (0 < current_bitcoin_price a)%Q ->
  ((0 < current_holdings a)%Q \/ ((0 < monthly_investment a)%Q /\ 0 < years_until_retirement a)) ->
  Forall (fun s => st_alive s = true)
    (fst (stream_years rf a (gross_up (tax_rate a)) (seq 0 (rf_years rf))
       (repeat (mkState (current_bitcoin_price a) (current_holdings a) true) (length (rf_rows rf)))
       (map (fun p => (p, [])) pcts))).
Proof.
  intros Hwf Hpos Hms Hh Hi Hp Hstart.
  set (P := fun (t : nat) (s : SimState) =>
         st_alive s = true /\ (0 < st_price s)%Q /\ (0 <= st_h s)%Q /\
         ((0 < st_h s)%Q \/ (t = 0%nat /\ (0 < monthly_investment a)%Q /\ 0 < years_until_retirement a))).
  destruct (stream_years_inv P (fun _ => True) rf a (gross_up (tax_rate a)) (rf_years rf) 0
              (repeat (mkState (current_bitcoin_price a) (current_holdings a) true) (length (rf_rows rf)))
              (map (fun p => (p, [])) pcts)) as [Hst _]; auto.
  - apply Forall_forall. intros s Hs. apply repeat_spec in Hs. subst s.
    unfold P; simpl. repeat split; auto. destruct Hstart as [H|H]; [left; exact H | right; tauto].
  - intros t Ht. apply column_pos; auto. lia.
  - intros t s f _ Hf (Hal & Hps & Hh0 & Hhs). unfold stream_update, P.
    destruct (Z.of_nat t <? years_until_retirement a) eqn:Et; simpl.
    + assert (Hn : (0 <= monthly_investment a * 12 / st_price s)%Q).
      { apply div_nonneg; [apply Qmult_le_0_compat; [exact Hi | discriminate] | exact Hps]. }
      assert (Hpos' : (0 < st_h s + monthly_investment a * 12 / st_price s)%Q).
      { destruct Hhs as [Hhs | (_ & Hmi & _)]; [lra|].
        assert (0 < monthly_investment a * 12 / st_price s)%Q; [|lra].
        apply div_pos; [apply Qmult_lt_0_compat; [exact Hmi | reflexivity] | exact Hps]. }
      repeat split; auto; [now apply Qmult_lt_0_compat | now apply Qlt_le_weak].
    + apply Z.ltb_ge in Et.
      destruct Hhs as [Hhs | (-> & _ & Hy)]; [|lia].
      assert (Hz : (monthly_spending a * 12 * gross_up (tax_rate a) / st_price s == 0)%Q).
      { rewrite Hms. unfold Qdiv. rewrite !Qmult_0_l. reflexivity. }
      rewrite np_maximum_of_nonneg by lra.
      assert (Hpos' : (0 < st_h s - monthly_spending a * 12 * gross_up (tax_rate a) / st_price s)%Q) by lra.
      rewrite Hal. simpl. apply qltb_true in Hpos' as Hb. rewrite Hb.
      repeat split; auto; [now apply Qmult_lt_0_compat | now apply Qlt_le_weak].
  - eapply Forall_impl; [|exact Hst]. intros s [Hal _]. exact Hal.
Qed.

(** *** Monotonicity in the tax rate *)

(** The scenario [a] with its [tax_rate] replaced. *)
Definition with_tax (a : SimArgs) (t : Q) : SimArgs :=
  mkArgs (current_age a) (retirement_age a) (current_holdings a) (monthly_investment a)
         (monthly_spending a) t (current_bitcoin_price a).

Lemma map_Forall2 {A B C} (P : A -> Prop) (R : B -> C -> Prop) (f : A -> B) (g : A -> C) l :
  Forall P l -> (forall x, P x -> R (f x) (g x)) -> Forall2 R (map f l) (map g l).
Proof. induction 1; intros; simpl; constructor; auto. Qed.

Lemma size_Forall2 {A B} (R : A -> B -> Prop) (l1 : list (list A)) (l2 : list (list B)) :
  Forall2 (Forall2 R) l1 l2 ->
  fold_right (fun r acc => length r + acc)%nat 0%nat l1 =
  fold_right (fun r acc => length r + acc)%nat 0%nat l2.
Proof.
  induction 1 as [|r1 r2 l1 l2 Hr _ IH]; simpl; [reflexivity|].
  rewrite (Forall2_length Hr), IH. reflexivity.
Qed.

Lemma forallb_pos_mono (r1 r2 : list Q) :
  Forall2 (fun y1 y2 => y2 <= y1)%Q r1 r2 ->
  forallb (qltb 0) r2 = true -> forallb (qltb 0) r1 = true.
Proof.
  induction 1 as [|y1 y2 r1 r2 Hy _ IH]; simpl; [auto|].
  rewrite !andb_true_iff, !qltb_true. intros [H1 H2]. split; [|auto].
  apply Qlt_le_trans with y2; assumption.
Qed.

Lemma path_holdings_gross_mono (a : SimArgs) (g1 g2 : Q) (years : nat) (r : list Q) :
  (g1 <= g2)%Q -> (0 <= monthly_spending a)%Q -> (0 < current_bitcoin_price a)%Q ->
  Forall (fun x => 0 < x)%Q r ->
  Forall2 (fun y1 y2 => y2 <= y1)%Q (path_holdings a g1 years r) (path_holdings a g2 years r).
Proof.
  intros Hg Hms Hp Hr. unfold path_holdings.
  set (prices := path_prices a r).
  assert (Hsp : Forall2 Qle (spend_btc a g1 years prices) (spend_btc a g2 years prices)).
  { unfold spend_btc. destruct (_ <? _); [|constructor].
    apply map_Forall2 with (P := fun p => (0 < p)%Q).
    - apply py_slice_from_Forall. now apply path_prices_pos.
    - intros p Hp0. now apply spend_term_mono. }
  apply path_loop_rel; [apply Qle_refl|].
  intros t x1 x2 Hx. unfold path_step.
  destruct (Z.of_nat t <? years_until_retirement a); [lra|].
  rewrite <- (Forall2_length Hsp).
  destruct (_ <? _); [|exact Hx].
  apply np_maximum_mono.
  assert (nth (Z.to_nat (Z.of_nat t - years_until_retirement a)) (spend_btc a g1 years prices) 0 <=
          nth (Z.to_nat (Z.of_nat t - years_until_retirement a)) (spend_btc a g2 years prices) 0)%Q
    by (apply Forall2_nth_d; [exact Hsp | apply Qle_refl]).
  lra.
Qed.

Lemma path_loop_with_tax (a : SimArgs) (t : Q) inv sp :
  forall ts h, path_loop (with_tax a t) inv sp ts h = path_loop a inv sp ts h.
Proof. induction ts as [|u ts IH]; intro h; simpl; [reflexivity|]. now rewrite IH. Qed.

Lemma path_holdings_with_tax (a : SimArgs) (t g : Q) (years : nat) (r : list Q) :
  path_holdings (with_tax a t) g years r = path_holdings a g years r.
Proof. unfold path_holdings. apply path_loop_with_tax. Qed.

Lemma paths_prob_tax_mono (rf : Mat) (a : SimArgs) (t1 t2 : Q) :
  mat_pos rf -> (t1 <= t2)%Q -> (0 <= monthly_spending a)%Q -> (0 < current_bitcoin_price a)%Q ->
  (snd (simulate_holdings_paths rf (with_tax a t2)) <=
   snd (simulate_holdings_paths rf (with_tax a t1)))%Q.
Proof.
  intros Hpos Ht Hms Hp. unfold simulate_holdings_paths. cbn [snd].
  change (tax_rate (with_tax a t1)) with t1. change (tax_rate (with_tax a t2)) with t2.
  change (years_until_retirement (with_tax a t1)) with (years_until_retirement a).
  change (years_until_retirement (with_tax a t2)) with (years_until_retirement a).
  rewrite (map_ext _ _ (path_holdings_with_tax a t1 (gross_up t1) (rf_years rf))).
  rewrite (map_ext _ _ (path_holdings_with_tax a t2 (gross_up t2) (rf_years rf))).
  assert (Hrows : Forall2 (Forall2 (fun y1 y2 => y2 <= y1)%Q)
            (map (py_slice_from (years_until_retirement a))
                 (map (path_holdings a (gross_up t1) (rf_years rf)) (rf_rows rf)))
            (map (py_slice_from (years_until_retirement a))
                 (map (path_holdings a (gross_up t2) (rf_years rf)) (rf_rows rf)))).
  { rewrite !map_map. apply map_Forall2 with (P := Forall (fun x => 0 < x)%Q); [exact Hpos|].
    intros r Hr. apply py_slice_from_Forall2.
    apply path_holdings_gross_mono; auto. now apply gross_up_mono. }
  rewrite (size_Forall2 _ _ _ Hrows).
  destruct (Nat.ltb 0 _); [|apply Qle_refl].
  apply bool_frac_mono.
  induction Hrows as [|r1 r2 l1 l2 Hr _ IH]; simpl; constructor; [|exact IH].
  now apply forallb_pos_mono.
Qed.

Lemma stream_prob_tax_mono (rf : Mat) (a : SimArgs) (pcts : list Z) (t1 t2 : Q) :
  mat_wf rf -> mat_pos rf -> (t1 <= t2)%Q -> (0 <= monthly_spending a)%Q ->
  (0 < current_bitcoin_price a)%Q ->
  match snd (simulate_percentiles_and_prob rf (with_tax a t2) pcts),
        snd (simulate_percentiles_and_prob rf (with_tax a t1) pcts) with
  | Some q2, Some q1 => (q2 <= q1)%Q
  | None, None => True
  | _, _ => False
  end.
Proof.
  intros Hwf Hpos Ht Hms Hp. unfold simulate_percentiles_and_prob.
  change (tax_rate (with_tax a t1)) with t1. change (tax_rate (with_tax a t2)) with t2.
  change (years_until_retirement (with_tax a t1)) with (years_until_retirement a).
  change (years_until_retirement (with_tax a t2)) with (years_until_retirement a).
  change (current_bitcoin_price (with_tax a t1)) with (current_bitcoin_price a).
  change (current_bitcoin_price (with_tax a t2)) with (current_bitcoin_price a).
  change (current_holdings (with_tax a t1)) with (current_holdings a).
  change (current_holdings (with_tax a t2)) with (current_holdings a).
  set (st0 := repeat (mkState (current_bitcoin_price a) (current_holdings a) true) (length (rf_rows rf))).
  set (R := fun (_ : nat) (s1 s2 : SimState) =>
         st_price s1 = st_price s2 /\ (0 < st_price s1)%Q /\ (st_h s2 <= st_h s1)%Q /\
         (st_alive s2 = true -> st_alive s1 = true)).
  pose proof (stream_years_rel R rf (with_tax a t1) (with_tax a t2) (gross_up t1) (gross_up t2)
                (rf_years rf) 0 st0 st0 (map (fun p => (p, [])) pcts) (map (fun p => (p, [])) pcts))
    as Hrel.
  destruct (stream_years rf (with_tax a t1) (gross_up t1) _ st0 _) as [st1 se1].
  destruct (stream_years rf (with_tax a t2) (gross_up t2) _ st0 _) as [st2 se2].
  simpl in Hrel |- *.
  assert (H : Forall2 (R (rf_years rf)) st1 st2).
  { apply Hrel.
    - clear Hrel. unfold st0. generalize (length (rf_rows rf)) as n.
      induction n; simpl; constructor; auto.
      unfold R; simpl; repeat split; auto; apply Qle_refl.
    - intros t Ht0. apply column_pos; auto. lia.
    - intros t s1 s2 f _ Hf (Hpe & Hps & Hh & Hal). unfold stream_update, R.
      change (years_until_retirement (with_tax a t1)) with (years_until_retirement a).
      change (years_until_retirement (with_tax a t2)) with (years_until_retirement a).
      cbn [monthly_investment monthly_spending with_tax].
      destruct (Z.of_nat t <? years_until_retirement a); simpl.
      + rewrite Hpe in *. repeat split; auto; [now apply Qmult_lt_0_compat | lra].
      + rewrite <- Hpe. split; [reflexivity|]. split; [now apply Qmult_lt_0_compat|].
        assert (Hs : (monthly_spending a * 12 * gross_up t1 / st_price s1 <=
                      monthly_spending a * 12 * gross_up t2 / st_price s1)%Q)
          by (apply spend_term_mono; auto; now apply gross_up_mono).
        assert (Hm : (np_maximum (st_h s2 - monthly_spending a * 12 * gross_up t2 / st_price s1) 0 <=
                      np_maximum (st_h s1 - monthly_spending a * 12 * gross_up t1 / st_price s1) 0)%Q)
          by (apply np_maximum_mono; lra).
        split; [exact Hm|].
        rewrite !andb_true_iff, !qltb_true. intros [Ha2 Hq]. split; [now apply Hal|].
        apply Qlt_le_trans with (1 := Hq). exact Hm. }
  destruct (years_until_retirement a <? Z.of_nat (rf_years rf)); [|apply Qle_refl].
  assert (Hb : Forall2 (fun b1 b2 => b2 = true -> b1 = true) (map st_alive st1) (map st_alive st2)).
  { clear Hrel. induction H as [|s1 s2 l1 l2 Hs _ IH]; simpl; constructor; auto. apply Hs. }
  destruct Hb as [|b1 b2 l1 l2 Hb0 Hbs] eqn:E; [exact I|].
  apply bool_frac_mono. now constructor.
Qed.

(* ------------------------------------------------------------------ *)
(** ** Concrete inputs for the simulators *)

(** One simulation over three years, retirement after the first year; the
    price is flat for two years, then quadruples. *)
Definition c1_rf : Mat := mkMat [[1; 1; 4]]%Q 3.
Definition c1_args : SimArgs := mkArgs 30 31 1 0 (1 # 20) 0 1.

(** Nothing held, nothing invested, nothing spent. *)
Definition c2_rf : Mat := mkMat [[1; 1]]%Q 2.
Definition c2_args : SimArgs := mkArgs 30 31 0 0 0 0 1.


(** A positive two-simulation matrix used by the witnesses. *)
Definition w_rf : Mat := mkMat [[2; 1; 3]; [1 # 2; 1; 2]]%Q 3.
Definition w_args : SimArgs := mkArgs 30 31 (1 # 10) 500 0 15 30000.

(* ------------------------------------------------------------------ *)
(** ** Claims about the path simulator *)

(** C1 (full-matrix simulator vs streaming simulator).  The claim: given the
    same matrix and scenario, [simulate_holdings_paths] and
    [simulate_percentiles_and_prob] return equal success probabilities and
    equal percentiles.  At the valid scenario [c1_args] (ages 30/31, horizon
    3 years, one BTC, [monthly_spending = 1/20], price 1) with the factors
    [[1; 1; 4]], the full-matrix simulator prices every year's withdrawal at
    the end-of-year price [price * cumprod(rf)] and reports success 1 and a
    final value of 1, while the streaming simulator prices it at the
    start-of-year price and reports success 0 and a final value of 0
    (its yearly values, in lowest terms, are [1; 2/5; 0]). *)
Theorem paths_and_streaming_disagree :
  (snd (simulate_holdings_paths c1_rf c1_args) == 1)%Q /\
  snd (simulate_percentiles_and_prob c1_rf c1_args default_percentiles) = Some 0%Q /\
  (nth 2 (nth 0 (fst (simulate_holdings_paths c1_rf c1_args)) []) 0 == 1)%Q /\
  map (fun pxs => (fst pxs, map (option_map Qred) (snd pxs)))
    (fst (simulate_percentiles_and_prob c1_rf c1_args default_percentiles)) =
    [(10, [Some 1%Q; Some (2 # 5)%Q; Some 0%Q]);
     (25, [Some 1%Q; Some (2 # 5)%Q; Some 0%Q]);
     (50, [Some 1%Q; Some (2 # 5)%Q; Some 0%Q])].
Proof. vm_compute. repeat split; reflexivity. Qed.

(** C2, counterexample: with [monthly_spending = 0] but nothing held and
    nothing invested, both simulators report a success probability of 0,
    not 1: "not run out" means holdings stay strictly positive. *)
Lemma zero_spending_zero_holdings_cex :
  ~ (snd (simulate_holdings_paths c2_rf c2_args) == 1)%Q /\
  snd (simulate_percentiles_and_prob c2_rf c2_args default_percentiles) = Some 0%Q.
Proof. vm_compute. split; [intro H; discriminate H | reflexivity]. Qed.

(** C2 (amended): with positive return factors, at least one simulation,
    [monthly_spending = 0], non-negative holdings and investment, a positive
    price, and something to hold at retirement ([current_holdings > 0], or
    [monthly_investment > 0] with retirement after the current age), both
    simulators report a success probability of exactly 1. *)
Theorem zero_spending_success_one (rf : Mat) (a : SimArgs) (pcts : list Z) :
  mat_wf rf -> mat_pos rf -> rf_rows rf <> [] ->
  (monthly_spending a == 0)%Q -> (0 <= current_holdings a)%Q ->
  (0 <= monthly_investment a)%Q -> (0 < current_bitcoin_price a)%Q ->
  ((0 < current_holdings a)%Q \/
   ((0 < monthly_investment a)%Q /\ 0 < years_until_retirement a)) ->
  (snd (simulate_holdings_paths rf a) == 1)%Q /\
  (exists q, snd (simulate_percentiles_and_prob rf a pcts) = Some q /\ (q == 1)%Q).
Proof.
  intros Hwf Hpos Hne Hms Hh Hi Hp Hstart. split.
  - unfold simulate_holdings_paths. cbn [snd].
    destruct (Nat.ltb 0 _); [|reflexivity].
    apply bool_frac_all.
    + destruct (rf_rows rf); [congruence | discriminate].
    + rewrite !map_map. apply Forall_map. unfold mat_wf, mat_pos in *.
      rewrite Forall_forall in *. intros r Hr. apply forallb_forall.
      intros x Hx. apply qltb_true.
      assert (Hall : Forall (fun x => 0 < x)%Q
                (py_slice_from (years_until_retirement a)
                   (path_holdings a (gross_up (tax_rate a)) (rf_years rf) r))).
      { apply py_slice_from_Forall, path_holdings_pos_zero_spend; auto. }
      rewrite Forall_forall in Hall. now apply Hall.
  - unfold simulate_percentiles_and_prob.
    pose proof (stream_alive_zero_spend rf a pcts Hwf Hpos Hms Hh Hi Hp Hstart) as Hal.
    pose proof (stream_years_length rf a (gross_up (tax_rate a)) (rf_years rf) 0
       (repeat (mkState (current_bitcoin_price a) (current_holdings a) true) (length (rf_rows rf)))
       (map (fun p => (p, [])) pcts) (repeat_length _ _)) as Hlen.
    destruct (stream_years rf a _ _ _ _) as [st se]. simpl in *.
    destruct (_ <? _); [|exists 1%Q; split; reflexivity].
    destruct st as [|s st]; [destruct (rf_rows rf); simpl in Hlen; congruence|].
    eexists; split; [reflexivity|]. apply bool_frac_all; [discriminate|].
    apply Forall_map. exact Hal.
Qed.

Lemma zero_spending_success_one_witness :
  mat_wf w_rf /\ mat_pos w_rf /\ rf_rows w_rf <> [] /\
  (monthly_spending w_args == 0)%Q /\
  (snd (simulate_holdings_paths w_rf w_args) == 1)%Q /\
  (exists q, snd (simulate_percentiles_and_prob w_rf w_args default_percentiles) = Some q /\
             (q == 1)%Q).
Proof.
  assert (Hwf : mat_wf w_rf) by (repeat constructor).
  assert (Hpos : mat_pos w_rf) by (repeat constructor).
  assert (Hne : rf_rows w_rf <> []) by discriminate.
  assert (Hms : (monthly_spending w_args == 0)%Q) by reflexivity.
  destruct (zero_spending_success_one w_rf w_args default_percentiles Hwf Hpos Hne Hms)
    as [H1 H2].
  - intro H; discriminate H.
  - intro H; discriminate H.
  - reflexivity.
  - left; reflexivity.
  - split; [exact Hwf|]. split; [exact Hpos|]. split; [exact Hne|].
    split; [exact Hms|]. split; [exact H1 | exact H2].
Defined.




(** C4: the gross-up factor [1 / max(1e-6, 1 - tax_rate/100)] is positive
    and at most [10^6] for every tax rate (including rates at or above
    100%), and for positive return factors, non-negative spending and a
    positive price, raising the tax rate from [t1] to [t2 >= t1] never
    raises the success probability of either simulator. *)
Theorem prob_nonincreasing_in_tax (rf : Mat) (a : SimArgs) (pcts : list Z) (t1 t2 : Q) :
  mat_wf rf -> mat_pos rf -> (t1 <= t2)%Q -> (0 <= monthly_spending a)%Q ->
  (0 < current_bitcoin_price a)%Q ->
  (forall tax, 0 < gross_up tax /\ gross_up tax <= 1000000)%Q /\
  (snd (simulate_holdings_paths rf (with_tax a t2)) <=
   snd (simulate_holdings_paths rf (with_tax a t1)))%Q /\
  match snd (simulate_percentiles_and_prob rf (with_tax a t2) pcts),
        snd (simulate_percentiles_and_prob rf (with_tax a t1) pcts) with
  | Some q2, Some q1 => (q2 <= q1)%Q
  | None, None => True
  | _, _ => False
  end.
Proof.
  intros Hwf Hpos Ht Hms Hp. split; [|split].
  - intro tax. split; [apply gross_up_pos | apply gross_up_le].
  - now apply paths_prob_tax_mono.
  - now apply stream_prob_tax_mono.
Qed.

Lemma prob_nonincreasing_in_tax_witness :
  mat_wf w_rf /\ mat_pos w_rf /\
  (snd (simulate_holdings_paths w_rf (with_tax c1_args 150)) <=
   snd (simulate_holdings_paths w_rf (with_tax c1_args 0)))%Q.
Proof.
  assert (Hwf : mat_wf w_rf) by (repeat constructor).
  assert (Hpos : mat_pos w_rf) by (repeat constructor).
  destruct (prob_nonincreasing_in_tax w_rf c1_args default_percentiles 0 150 Hwf Hpos)
    as (_ & H2 & _).
  - intro H; discriminate H.
  - intro H; discriminate H.
  - reflexivity.
  - split; [exact Hwf|]. split; [exact Hpos | exact H2].
Defined.

(* ================================================================== *)
(** * Return-factor generators ([simulation.py], lines 14-121)

    The generators are modelled over the reals, extended with the IEEE
    values [-inf], [+inf] and NaN that numpy's [log1p], [exp] and
    arithmetic produce; the float32 casts are dropped.  The random stream
    of [np.random.default_rng(seed)] is an input: [gauss i y] is the
    standard normal drawn for simulation [i] and year [y] (numpy's
    [normal(loc, scale)] returns [loc + scale * gauss]), and [unif i y] the
    uniform of [rng.random].  [date.today()] is the input [now]. *)
Module Gen.
Import Reals Lra.
Local Open Scope R_scope.

Inductive xreal := XR (r : R) | XNInf | XPInf | XNaN.

Definition xneg (a : xreal) : xreal :=
  match a with
  | XR x => XR (- x)
  | XNInf => XPInf
  | XPInf => XNInf
  | XNaN => XNaN
  end.

Definition xadd (a b : xreal) : xreal :=
  match a, b with
  | XR x, XR y => XR (x + y)
  | XNaN, _ | _, XNaN => XNaN
  | XNInf, XPInf | XPInf, XNInf => XNaN
  | XNInf, _ | _, XNInf => XNInf
  | XPInf, _ | _, XPInf => XPInf
  end.

(** [inf * 0] is NaN; otherwise the sign of the finite factor decides. *)
Definition xmul (a b : xreal) : xreal :=
  match a, b with
  | XR x, XR y => XR (x * y)
  | XNaN, _ | _, XNaN => XNaN
  | XR x, i | i, XR x =>
      if Req_dec_T x 0 then XNaN else if Rlt_dec 0 x then i else xneg i
  | XNInf, XNInf | XPInf, XPInf => XPInf
  | _, _ => XNInf
  end.

Definition xexp (a : xreal) : xreal :=
  match a with
  | XR x => XR (exp x)
  | XNInf => XR 0
  | XPInf => XPInf
  | XNaN => XNaN
  end.

(** [np.log1p]: [-inf] at [-1], NaN below. *)
Definition log1p (x : R) : xreal :=
  if Rlt_dec (-1) x then XR (ln (1 + x))
  else if Req_dec_T x (-1) then XNInf else XNaN.

(** A strictly positive factor. *)
Definition xpos (a : xreal) : Prop :=
  match a with
  | XR x => 0 < x
  | XPInf => True
  | _ => False
  end.

Record date := mkDate { year : Z; month : Z; day : Z }.

Definition HALVING_ANCHOR_YEAR : Z := 2024.
Definition HALVING_ANCHOR_MONTH : Z := 4.
Definition HALVING_ANCHOR_DAY : Z := 20.
Definition HALVING_CYCLE_MONTHS : Z := 48.
Definition PRICE_DECAY_YEARS_SCALE : R := 42.

(** (annual mean arithmetic return, annual volatility) per 12-month phase. *)
Definition HALVING_PHASE_PARAMS : list (R * R) :=
  [(4 / 5, 17 / 20); (7 / 20, 3 / 5); (- (1 / 5), 7 / 10); (3 / 25, 1 / 2)].

(** Python's [%] and [//] by a positive divisor are [Z.modulo] and [Z.div]. *)
Definition compute_halving_phases (years : nat) (now : date) : list Z :=
  let months_since_anchor :=
    ((year now - HALVING_ANCHOR_YEAR) * 12 + (month now - HALVING_ANCHOR_MONTH))%Z in
  map (fun y => (((months_since_anchor + Z.of_nat y * 12 + 6) mod HALVING_CYCLE_MONTHS) / 12)%Z)
    (seq 0 years).

Definition np_mean_R (l : list R) : R := fold_right Rplus 0 l / INR (length l).

Definition phase_mu_arith : list R := map fst HALVING_PHASE_PARAMS.
Definition phase_sigma_log : list R := map snd HALVING_PHASE_PARAMS.

(** Every phase mean exceeds [-1], so [log1p] is the real [ln (1 + m)]. *)
Definition phase_mu_log_raw : list R := map (fun m => ln (1 + m)) phase_mu_arith.
Definition phase_mu_log_tilt : list R :=
  map (fun r => r - np_mean_R phase_mu_log_raw) phase_mu_log_raw.

Definition decay (y : nat) : R := 1 / (1 + INR y / PRICE_DECAY_YEARS_SCALE).

Definition growth_g (target : option R) : R :=
  match target with Some t => t / 100 | None => 1 / 10 end.

Definition compute_mu_log_schedule (years : nat) (target : option R) (now : date)
  : list xreal * list R :=
  let phases := compute_halving_phases years now in
  let mu0 := log1p (growth_g target) in
  (map (fun yp => xadd (xmul mu0 (XR (decay (fst yp))))
                       (XR (nth (Z.to_nat (snd yp)) phase_mu_log_tilt 0)))
       (combine (seq 0 years) phases),
   map (fun ph => nth (Z.to_nat ph) phase_sigma_log 0) phases).

Definition generate_halving_returns (years n_sims : nat) (gauss : nat -> nat -> R)
  (target : option R) (now : date) : list (list xreal) :=
  let sched := compute_mu_log_schedule years target now in
  map (fun i =>
         map (fun yms => xexp (xadd (fst (snd yms)) (XR (snd (snd yms) * gauss i (fst yms)))))
           (combine (seq 0 years) (combine (fst sched) (snd sched))))
    (seq 0 n_sims).

(** Bull returns are [normal(0.3, 0.2)], bear returns [normal(-0.1, 0.25)],
    drawn as two separate matrices; the regime is bull when the uniform is
    below [0.5]. *)
Definition simulate_regime_shift_returns (years n_sims : nat)
  (unif gbull gbear : nat -> nat -> R) (target : option R) : list (list R) :=
  map (fun i =>
         map (fun y =>
                let bull := 3 / 10 + 2 / 10 * gbull i y in
                let bear := - (1 / 10) + 1 / 4 * gbear i y in
                let r := if Rlt_dec (unif i y) (1 / 2) then bull else bear in
                let r := match target with
                         | Some t => r + (t / 100 - (1 / 2 * (3 / 10) + 1 / 2 * (- (1 / 10))))
                         | None => r
                         end in
                1 + r)
           (seq 0 years))
    (seq 0 n_sims).

(** ** Facts about the schedule *)

Lemma decay_pos (y : nat) : 0 < decay y.
Proof.
  unfold decay, PRICE_DECAY_YEARS_SCALE.
  assert (0 <= INR y / 42).
  { apply Rmult_le_pos; [apply pos_INR | left; apply Rinv_0_lt_compat; lra]. }
  apply Rdiv_lt_0_compat; lra.
Qed.

Lemma decay_0 : decay 0 = 1.
Proof. unfold decay, PRICE_DECAY_YEARS_SCALE. simpl. field. Qed.

Lemma log1p_gt (x : R) : -1 < x -> log1p x = XR (ln (1 + x)).
Proof. intro H. unfold log1p. destruct (Rlt_dec (-1) x); [reflexivity | contradiction]. Qed.

Lemma log1p_m1 : log1p (-1) = XNInf.
Proof.
  unfold log1p. destruct (Rlt_dec (-1) (-1)); [lra|].
  destruct (Req_dec_T (-1) (-1)); [reflexivity | congruence].
Qed.

Lemma xmul_ninf_pos (d : R) : 0 < d -> xmul XNInf (XR d) = XNInf.
Proof.
  intro H. simpl. destruct (Req_dec_T d 0); [lra|].
  destruct (Rlt_dec 0 d); [reflexivity | lra].
Qed.

Lemma phase_lt4 (x : Z) : (Z.to_nat ((x mod 48) / 12) < 4)%nat.
Proof.
  pose proof (Z.mod_pos_bound x 48 ltac:(lia)).
  assert (0 <= (x mod 48) / 12 < 4)%Z.
  { split; [apply Z.div_pos | apply Z.div_lt_upper_bound]; lia. }
  lia.
Qed.

Lemma sched_finite (years : nat) (target : option R) (now : date) :
  -1 < growth_g target ->
  Forall (fun m => exists r, m = XR r) (fst (compute_mu_log_schedule years target now)).
Proof.
  intro Hg. unfold compute_mu_log_schedule. cbn [fst]. rewrite (log1p_gt _ Hg).
  apply Forall_forall. intros m Hm. apply in_map_iff in Hm.
  destruct Hm as [yp [<- _]]. simpl. eexists; reflexivity.
Qed.

Lemma sched_ninf (years : nat) (target : option R) (now : date) :
  growth_g target = -1 ->
  Forall (fun m => m = XNInf) (fst (compute_mu_log_schedule years target now)).
Proof.
  intro Hg. unfold compute_mu_log_schedule. cbn [fst]. rewrite Hg, log1p_m1.
  apply Forall_forall. intros m Hm. apply in_map_iff in Hm.
  destruct Hm as [yp [<- _]]. rewrite (xmul_ninf_pos _ (decay_pos _)). reflexivity.
Qed.

Lemma gen_Forall (P : xreal -> Prop) (years n_sims : nat) (gauss : nat -> nat -> R)
  (target : option R) (now : date) :
  (forall m r, In m (fst (compute_mu_log_schedule years target now)) ->
     P (xexp (xadd m (XR r)))) ->
  Forall (Forall P) (generate_halving_returns years n_sims gauss target now).
Proof.
  intro HP. unfold generate_halving_returns.
  apply Forall_forall. intros row Hrow. apply in_map_iff in Hrow.
  destruct Hrow as [i [<- _]]. apply Forall_forall. intros f Hf.
  apply in_map_iff in Hf. destruct Hf as [[y [m s]] [<- Hin]]. cbn [fst snd].
  apply HP. apply in_combine_r, in_combine_l in Hin. exact Hin.
Qed.

Lemma halving_pos (years n_sims : nat) (gauss : nat -> nat -> R)
  (target : option R) (now : date) :
  -1 < growth_g target ->
  Forall (Forall xpos) (generate_halving_returns years n_sims gauss target now).
Proof.
  intro Hg. apply gen_Forall. intros m r Hm.
  pose proof (sched_finite years target now Hg) as Hf. rewrite Forall_forall in Hf.
  destruct (Hf m Hm) as [a ->]. simpl. apply exp_pos.
Qed.

Lemma halving_zero (years n_sims : nat) (gauss : nat -> nat -> R)
  (target : option R) (now : date) :
  growth_g target = -1 ->
  Forall (Forall (fun f => f = XR 0)) (generate_halving_returns years n_sims gauss target now).
Proof.
  intro Hg. apply gen_Forall. intros m r Hm.
  pose proof (sched_ninf years target now Hg) as Hf. rewrite Forall_forall in Hf.
  rewrite (Hf m Hm). reflexivity.
Qed.

Lemma ln_ne (x y : R) : 0 < x -> 0 < y -> x <> y -> ln x <> ln y.
Proof. intros Hx Hy Hxy H. apply Hxy. apply ln_inv; assumption. Qed.

Lemma ln_sum4 (a b c d : R) : 0 < a -> 0 < b -> 0 < c -> 0 < d ->
  ln a + (ln b + (ln c + (ln d + 0))) = ln (a * b * c * d).
Proof.
  intros. rewrite !ln_mult; try lra;
    repeat (apply Rmult_lt_0_compat; try assumption).
Qed.

Lemma ln_four (a : R) : 0 < a -> 4 * ln a = ln (a * a * a * a).
Proof.
  intro. rewrite !ln_mult; try lra; repeat (apply Rmult_lt_0_compat; try assumption).
Qed.

Lemma phase_tilt_sum : fold_right Rplus 0 phase_mu_log_tilt = 0.
Proof.
  unfold phase_mu_log_tilt, np_mean_R. simpl map. simpl length.
  replace (INR 4) with 4 by (simpl; lra). simpl. lra.
Qed.

(** Each tilt is [ln m - ln (m0 m1 m2 m3) / 4], zero only if [m^4] were the
    product of the four gross phase means. *)
Lemma phase_tilt_nonzero (k : nat) : (k < 4)%nat -> nth k phase_mu_log_tilt 0 <> 0.
Proof.
  intro Hk. unfold phase_mu_log_tilt, phase_mu_log_raw, np_mean_R, phase_mu_arith,
    HALVING_PHASE_PARAMS. simpl map. simpl length.
  replace (INR 4) with 4 by (simpl; lra).
  rewrite ln_sum4 by lra.
  destruct k as [|[|[|[|k]]]]; [| | | | lia]; simpl nth; intro H;
  match goal with
  | H : ln ?m - ln ?P / _ = 0 |- _ =>
      assert (E : ln (m * m * m * m) = ln P) by (rewrite <- ln_four by lra; lra);
      revert E; apply ln_ne; [nra | nra | nra]
  end.
Qed.

(** The year-0 drift: [mu0 * decay 0 + tilt[phase 0]] with [decay 0 = 1]. *)
Lemma mu_log_first (t : R) (years : nat) (now : date) :
  -100 < t -> (0 < years)%nat ->
  nth 0 (fst (compute_mu_log_schedule years (Some t) now)) XNaN =
    XR (ln (1 + t / 100) +
        nth (Z.to_nat (nth 0 (compute_halving_phases years now) 0%Z)) phase_mu_log_tilt 0) /\
  (Z.to_nat (nth 0 (compute_halving_phases years now) 0%Z) < 4)%nat.
Proof.
  intros Ht Hy. destruct years as [|n]; [lia|].
  unfold compute_mu_log_schedule. cbn [fst growth_g].
  rewrite log1p_gt by lra.
  cbn [compute_halving_phases seq map combine nth fst snd xmul xadd].
  rewrite decay_0, Rmult_1_r. split; [reflexivity | apply phase_lt4].
Qed.

(** C5, counterexample: with [target_arith_return_pct = -100] the growth
    rate is [-1], [log1p] gives [-inf], every drift is [-inf] and every
    factor [exp(-inf + scale * draw)] of [generate_halving_returns] is [0]
    (here with all draws [0] on 2026-10-15; [halving_zero] gives the same for
    any draws and date). *)
Lemma halving_factor_zero_at_minus_100 :
  map (@length xreal)
    (generate_halving_returns 1 1 (fun _ _ => 0) (Some (-100)) (mkDate 2026 10 15)) = [1%nat] /\
  Forall (Forall (fun f => f = XR 0 /\ ~ xpos f))
    (generate_halving_returns 1 1 (fun _ _ => 0) (Some (-100)) (mkDate 2026 10 15)).
Proof.
  split; [reflexivity|].
  assert (Hg : growth_g (Some (-100)) = -1) by (simpl; field).
  pose proof (halving_zero 1 1 (fun _ _ => 0) (Some (-100)) (mkDate 2026 10 15) Hg) as H.
  revert H. apply Forall_impl. intros row. apply Forall_impl.
  intros f ->. split; [reflexivity | simpl; lra].
Qed.

(** C5 (amended): for a growth target above [-100%] (or the default 10%),
    every factor of [generate_halving_returns] is strictly positive for any
    draws; at [-100%] every factor is [0] and below it NaN.  The factors of
    [simulate_regime_shift_returns] are [1 + r + shift] for a normally drawn
    [r], and for every target, horizon and simulation count some draws make
    a factor non-positive. *)
Theorem halving_factors_positive (years n_sims : nat) (gauss : nat -> nat -> R)
  (target : option R) (now : date) :
  match target with Some t => -100 < t | None => True end ->
  Forall (Forall xpos) (generate_halving_returns years n_sims gauss target now) /\
  ((0 < years)%nat -> (0 < n_sims)%nat ->
   exists unif gbull gbear row f,
     In row (simulate_regime_shift_returns years n_sims unif gbull gbear target) /\
     In f row /\ f < 0).
Proof.
  intro Ht. split.
  - apply halving_pos. destruct target as [t|]; simpl; lra.
  - intros Hy Hn. destruct years as [|y]; [lia|]. destruct n_sims as [|n]; [lia|].
    exists (fun _ _ => 0), (fun _ _ => match target with Some t => -10 - t / 20 | None => -10 end),
      (fun _ _ => 0).
    eexists; eexists. split; [left; reflexivity|]. split; [left; reflexivity|].
    cbv beta. destruct (Rlt_dec 0 (1 / 2)) as [_|Hc]; [|lra].
    destruct target as [t|]; lra.
Qed.

Lemma halving_factors_positive_witness :
  -100 < 10 /\
  Forall (Forall xpos) (generate_halving_returns 3 2 (fun _ _ => 0) (Some 10) (mkDate 2026 10 15)) /\
  (exists unif gbull gbear row f,
     In row (simulate_regime_shift_returns 3 2 unif gbull gbear (Some 10)) /\ In f row /\ f < 0).
Proof.
  assert (Ht : -100 < 10) by lra.
  destruct (halving_factors_positive 3 2 (fun _ _ => 0) (Some 10) (mkDate 2026 10 15) Ht)
    as [H1 H2].
  split; [exact Ht|]. split; [exact H1|]. apply H2; lia.
Defined.

(** C6, counterexample: on the halving anchor date (phase 0) with a 10%
    target, the year-0 drift is [ln 1.1 + tilt[0]], not [ln 1.1]: the
    phase-0 tilt is non-zero. *)
Lemma mu_log_year0_not_mu0 :
  nth 0 (fst (compute_mu_log_schedule 1 (Some 10) (mkDate 2024 4 20))) XNaN <>
  XR (ln (1 + 10 / 100)).
Proof.
  destruct (mu_log_first 10 1 (mkDate 2024 4 20) ltac:(lra) ltac:(lia)) as [-> Hk].
  intro H. assert (Hinj : forall a b, XR a = XR b -> a = b) by congruence.
  apply Hinj in H. apply (phase_tilt_nonzero _ Hk). lra.
Qed.

(** C6 (amended): for every target above [-100%], horizon [years >= 1] and
    date, the year-0 drift of [compute_mu_log_schedule] is
    [ln (1 + target/100) + tilt[phase 0]], where the four phase tilts sum to
    zero but each is non-zero; so the year-0 drift is never [mu0] itself,
    [mu0] being the average of the year-0 drift over the four phases. *)
Theorem mu_log_year0_tilted (t : R) (years : nat) (now : date) :
  -100 < t -> (0 < years)%nat ->
  nth 0 (fst (compute_mu_log_schedule years (Some t) now)) XNaN =
    XR (ln (1 + t / 100) +
        nth (Z.to_nat (nth 0 (compute_halving_phases years now) 0%Z)) phase_mu_log_tilt 0) /\
  fold_right Rplus 0 phase_mu_log_tilt = 0 /\
  nth 0 (fst (compute_mu_log_schedule years (Some t) now)) XNaN <> XR (ln (1 + t / 100)).
Proof.
  intros Ht Hy. destruct (mu_log_first t years now Ht Hy) as [E Hk].
  split; [exact E|]. split; [exact phase_tilt_sum|].
  rewrite E. intro H. assert (Hinj : forall a b, XR a = XR b -> a = b) by congruence.
  apply Hinj in H. apply (phase_tilt_nonzero _ Hk). lra.
Qed.

Lemma mu_log_year0_tilted_witness :
  -100 < 21 /\ (0 < 5)%nat /\
  nth 0 (fst (compute_mu_log_schedule 5 (Some 21) (mkDate 2026 10 15))) XNaN <>
    XR (ln (1 + 21 / 100)).
Proof.
  assert (Ht : -100 < 21) by lra. assert (Hy : (0 < 5)%nat) by lia.
  destruct (mu_log_year0_tilted 21 5 (mkDate 2026 10 15) Ht Hy) as (_ & _ & H).
  split; [exact Ht|]. split; [exact Hy | exact H].
Defined.

Lemma halving_phase_range (a : Z) : (0 <= (a mod 48) / 12 <= 3)%Z.
Proof. Z.div_mod_to_equations. lia. Qed.

Lemma halving_phase_step (a : Z) : (((a + 12) mod 48) / 12 = ((a mod 48) / 12 + 1) mod 4)%Z.
Proof. Z.div_mod_to_equations. lia. Qed.

(** X13: [_compute_halving_phases(years, now)] returns one phase index per
    simulated year, each in [0..3], and from one year to the next the phase
    advances by one, wrapping from [3] back to [0], whatever the date. *)
Theorem halving_phases_cycle (years : nat) (now : date) :
  length (compute_halving_phases years now) = years /\
  (forall y, (y < years)%nat -> (0 <= nth y (compute_halving_phases years now) 0 <= 3)%Z) /\
  (forall y, (S y < years)%nat ->
     nth (S y) (compute_halving_phases years now) 0%Z =
     ((nth y (compute_halving_phases years now) 0 + 1) mod 4)%Z).
Proof.
  unfold compute_halving_phases, HALVING_CYCLE_MONTHS.
  set (m := ((year now - HALVING_ANCHOR_YEAR) * 12 + (month now - HALVING_ANCHOR_MONTH))%Z).
  set (f := fun y : nat => (((m + Z.of_nat y * 12 + 6) mod 48) / 12)%Z).
  assert (N : forall y, (y < years)%nat -> nth y (map f (seq 0 years)) 0%Z = f y).
  { intros y Hy. rewrite (nth_indep _ _ (f 0%nat)) by (rewrite length_map, length_seq; exact Hy).
    rewrite map_nth, seq_nth by exact Hy. reflexivity. }
  split; [now rewrite length_map, length_seq|]. split.
  - intros y Hy. rewrite N by exact Hy. apply halving_phase_range.
  - intros y Hy. rewrite !N by lia. subst f. cbv beta. rewrite Nat2Z.inj_succ.
    rewrite <- halving_phase_step. f_equal. f_equal. lia.
Qed.

End Gen.

(* ================================================================== *)
(** * The recommendation optimizer ([main.py], lines 59-398)

    Python exceptions are modelled by the result type [Res]: a computation
    returns a value, raises one of the [Exception] subclasses the code can
    meet, or runs out of the fuel that bounds its [while] loops (Python's
    loops have no such bound; [OutOfFuel] only says the bound was too small).
    Numbers are exact rationals. *)
Module Opt.
Local Open Scope string_scope.

Inductive exn := KeyError | TypeError | ValueError | ZeroDivisionError | OtherError.

Inductive Res (A : Type) : Type :=
| Ok (a : A)
| Raise (e : exn)
| OutOfFuel.
Arguments Ok {A} a.
Arguments Raise {A} e.
Arguments OutOfFuel {A}.

Definition bind {A B} (m : Res A) (k : A -> Res B) : Res B :=
  match m with
  | Ok a => k a
  | Raise e => Raise e
  | OutOfFuel => OutOfFuel
  end.

Notation "'let*' x ':=' m 'in' k" := (bind m (fun x => k))
  (at level 200, x name, m at level 100, k at level 200).
Notation "'let*' ' p ':=' m 'in' k" := (bind m (fun x => match x with p => k end))
  (at level 200, p pattern, m at level 100, k at level 200).

(** Python's [min(a, b)]: keeps [a] unless [b < a]. *)
Definition py_min (a b : Q) : Q := if qltb b a then b else a.

Definition py_div (a b : Q) : Res Q :=
  if Qeq_bool b 0 then Raise ZeroDivisionError else Ok (a / b)%Q.

(** Python's [round(x)] on a float: to the nearest integer, ties to even. *)
Definition py_round (q : Q) : Z :=
  let f := Qfloor q in
  let d := (q - inject_Z f)%Q in
  if qltb d (1 # 2) then f
  else if qltb (1 # 2) d then f + 1
  else if Z.even f then f else f + 1.

(** [int(x)] of a float truncates toward zero. *)
Definition py_trunc (q : Q) : Z :=
  if Qle_bool 0 q then Qfloor q else - Qfloor (- q).

(** ** [bracket_and_bisect] (lines 124-159) *)

(** The expansion loop: [while p_upper < target and upper < upper_cap]. *)
Fixpoint bb_expand (getter : Q -> Res Q) (target upper_cap granularity : Q) (fuel : nat)
  (upper p_upper : Q) : Res (Q * Q) :=
  match fuel with
  | O => OutOfFuel
  | S fuel' =>
      if qltb p_upper target && qltb upper upper_cap then
        let upper := py_min (if qltb 0 upper then upper * 2 else granularity * 2)%Q upper_cap in
        let* p_upper := getter upper in
        bb_expand getter target upper_cap granularity fuel' upper p_upper
      else Ok (upper, p_upper)
  end.

(** The bisection loop: [while (hi - lo) > granularity]. *)
Fixpoint bb_bisect (getter : Q -> Res Q) (target granularity : Q) (fuel : nat)
  (lo hi best best_p : Q) : Res (Q * Q) :=
  match fuel with
  | O => OutOfFuel
  | S fuel' =>
      if qltb granularity (hi - lo) then
        let mid := ((lo + hi) / 2)%Q in
        let* r := py_div mid granularity in
        let mid := (inject_Z (py_round r) * granularity)%Q in
        let* pm := getter mid in
        if Qle_bool target pm
        then bb_bisect getter target granularity fuel' lo mid mid pm
        else bb_bisect getter target granularity fuel' mid hi best best_p
      else Ok (best, best_p)
  end.

Definition bracket_and_bisect (target : Q) (getter : Q -> Res Q)
  (lower upper_init upper_cap granularity : Q) (fuel : nat) : Res (bool * Q * Q) :=
  let* p0 := getter lower in
  if Qle_bool target p0 then Ok (true, lower, p0) else
  let upper := py_max upper_init (lower + granularity) in
  let* p_upper := getter upper in
  let* '(upper, p_upper) := bb_expand getter target upper_cap granularity fuel upper p_upper in
  if qltb p_upper target then Ok (false, upper, p_upper) else
  let* '(best, best_p) :=
    bb_bisect getter target granularity fuel lower upper upper p_upper in
  Ok (true, py_max granularity best, best_p).

(** ** [ease_bracket_and_bisect] (lines 243-266) *)

(** [while p_hi >= target and hi < upper_cap]. *)
Fixpoint ease_expand (getter : Q -> Res Q) (target upper_cap : Q) (fuel : nat)
  (lo hi p_hi : Q) : Res (Q * Q * Q) :=
  match fuel with
  | O => OutOfFuel
  | S fuel' =>
      if Qle_bool target p_hi && qltb hi upper_cap then
        let lo := hi in
        let hi := py_min (hi * 2)%Q upper_cap in
        let* p_hi := getter hi in
        ease_expand getter target upper_cap fuel' lo hi p_hi
      else Ok (lo, hi, p_hi)
  end.

(** [while (right - left) > granularity]. *)
Fixpoint ease_bisect (getter : Q -> Res Q) (target granularity : Q) (fuel : nat)
  (left right best : Q) : Res Q :=
  match fuel with
  | O => OutOfFuel
  | S fuel' =>
      if qltb granularity (right - left) then
        let mid := ((left + right) / 2)%Q in
        let* r := py_div mid granularity in
        let mid := (inject_Z (py_round r) * granularity)%Q in
        let* pm := getter mid in
        if Qle_bool target pm
        then ease_bisect getter target granularity fuel' mid right mid
        else ease_bisect getter target granularity fuel' left mid best
      else Ok best
  end.

Definition ease_bracket_and_bisect (target : Q) (getter : Q -> Res Q)
  (upper_init upper_cap granularity : Q) (fuel : nat) : Res Q :=
  let lo := 0%Q in
  let hi := py_max upper_init granularity in
  let* p_hi := getter hi in
  let* '(lo, hi, p_hi) := ease_expand getter target upper_cap fuel lo hi p_hi in
  if qltb p_hi target && Qeq_bool lo 0 then Ok 0%Q else
  let* best := ease_bisect getter target granularity fuel lo hi lo in
  Ok (py_max 0 best).

(** ** Configuration ([config.py]) *)

Definition SPENDING_MIN : Q := 1.
Definition SPENDING_STEP : Q := 100.
Definition INVESTMENT_STEP : Q := 50.
Definition AGE_RANGE : Z * Z := (18, 120).
Definition OPT_TARGET_PROB : Q := 4 # 5.
Definition OPT_UPPER_TARGET_HINT : Q := 9 # 10.
Definition OPT_SIMS_MIN : Z := 5000.
Definition OPT_SEED : Z := 12345.
Definition OPT_MAX_TOTAL_INVESTMENT : Q := 500000.
Definition OPT_MAX_EXPENSE_CUT_PCT : Q := 1 # 2.
Definition OPT_MAX_RETIRE_DELAY_YEARS : Z := 10.
Definition OPT_GRANULARITY_DOLLARS : Q := 10.
Definition OPT_GRANULARITY_YEARS : Q := 1.
Definition OPT_ALTERNATE_COUNT : nat := 1.
Definition OPT_WEIGHT_INVEST : Q := 1.
Definition OPT_WEIGHT_EXPENSE : Q := 1.
Definition OPT_WEIGHT_RETIRE_YEAR : Q := 3 # 4.
Definition OPT_MAX_EXPENSE_INCREASE_PCT : Q := 1 # 4.

(** ** Python values and the [inputs] dictionary *)

(** A value of the [inputs] dict: a number (int or float), a string, or
    [None]. *)
Inductive PyVal := PNum (q : Q) | PStr (s : string) | PNone.

Definition Dict := list (string * PyVal).

Fixpoint dict_find (d : Dict) (k : string) : option PyVal :=
  match d with
  | [] => None
  | (k', v) :: d' => if String.eqb k k' then Some v else dict_find d' k
  end.

(** [d[k]] *)
Definition getitem (d : Dict) (k : string) : Res PyVal :=
  match dict_find d k with Some v => Ok v | None => Raise KeyError end.

(** [d.get(k, default)] *)
Definition dict_get (d : Dict) (k : string) (default : PyVal) : PyVal :=
  match dict_find d k with Some v => v | None => default end.

(** [a - b]: numbers only, anything else is a [TypeError]. *)
Definition py_sub (a b : PyVal) : Res Q :=
  match a, b with
  | PNum x, PNum y => Ok (x - y)%Q
  | _, _ => Raise TypeError
  end.

(** ** Number formatting (lines 59-68) *)

(** [_round_dollars(x, step=10)]: [round] of a finite float cannot fail. *)
Definition round_dollars (x : Q) : Z := 10 * py_round (x / 10)%Q.

Fixpoint commas_rev (n : nat) (ds : list ascii) : list ascii :=
  match ds with
  | [] => []
  | d :: ds' =>
      if Nat.eqb n 3 then ","%char :: d :: commas_rev 1 ds' else d :: commas_rev (S n) ds'
  end.

(** [f"{n:,}"] for an int. *)
Definition fmt_thousands (z : Z) : string :=
  let ds := list_ascii_of_string (NilZero.string_of_uint (N.to_uint (Z.abs_N z))) in
  String.append (if (z <? 0)%Z then "-" else "")
    (string_of_list_ascii (rev (commas_rev 0 (rev ds)))).

(** [_fmt_money]: [f"\\${_round_dollars(x):,}"], a backslash, a dollar sign and the
    grouped digits. *)
Definition fmt_money (x : Q) : string := String.append "\$" (fmt_thousands (round_dollars x)).

(** [f"{n}"] for an int. *)
Definition fmt_int (z : Z) : string := NilZero.string_of_int (Z.to_int z).

Definition cat (l : list string) : string := fold_right String.append EmptyString l.

(** ** Messages *)

Definition msg_band : string := cat [
  "Youâ€™re already in the 80â€“90% target range, so no changes are needed. ";
  "If youâ€™d like a bit more cushion, a small increase in contributions or a modest expense trim can nudge the odds higher."].
Definition msg_comfortable : string :=
  "Youâ€™re comfortably above the 80â€“90% target. You could scale back slightly and still maintain at least an 80% chance of success.".
Definition msg_infeasible : string := cat [
  "Reaching an 80% success probability within reasonable bounds wasn't feasible in these simulations. ";
  "A more substantial combination of delaying retirement, increasing contributions, and lowering expenses may be required."].
Definition msg_fallback : string :=
  "To improve your odds toward the 80% target, modest adjustments across contributions, retirement timing, or spending will help.".

(** [isfinite] of an exact number. *)
Definition isfinite (q : Q) : bool := true.

(** An entry of [options]: (key, normalized_cost, text). *)
Definition option_entry := (string * Q * string)%type.

Definition entry_norm (o : option_entry) : Q := snd (fst o).
Definition entry_text (o : option_entry) : string := snd o.

(** [list.sort(key=...)] is stable: an entry goes before the first one whose
    key is not smaller. *)
Fixpoint insert_entry (o : option_entry) (l : list option_entry) : list option_entry :=
  match l with
  | [] => [o]
  | y :: l' => if Qle_bool (entry_norm o) (entry_norm y) then o :: l else y :: insert_entry o l'
  end.

Definition sort_entries (l : list option_entry) : list option_entry :=
  fold_right insert_entry [] l.

(** [norm < best_combo_norm], with [None] for [float("inf")]. *)
Definition lt_inf (x : Q) (best : option Q) : bool :=
  match best with None => true | Some b => qltb x b end.

Fixpoint fold_m {S A} (f : S -> A -> Res S) (st : S) (l : list A) : Res S :=
  match l with
  | [] => Ok st
  | x :: l' => let* st' := f st x in fold_m f st' l'
  end.

(** [range(1, n + 1)] *)
Definition range1 (n : Z) : list Z := map Z.of_nat (seq 1 (Z.to_nat n)).

(** ** [_recommend_adjustments] (lines 71-398)

    [float(s)] and [int(s)] of a string parse it ([parse_float], [parse_int]);
    the calls to [generate_halving_returns] (seeded with [OPT_SEED]) and to
    [simulate_percentiles_and_prob] are abstract: they return a matrix and a
    probability, or raise. *)
Section Recommend.
Variable parse_float : string -> option Q.
Variable parse_int : string -> option Z.
Variable generate_halving_returns : Q -> Z -> Z -> Q -> Res Mat.
Variable simulate_prob : Mat -> SimArgs -> Res Q.
Variable fuel : nat.

(** [float(v)] *)
Definition py_float (v : PyVal) : Res Q :=
  match v with
  | PNum q => Ok q
  | PStr s => match parse_float s with Some q => Ok q | None => Raise ValueError end
  | PNone => Raise TypeError
  end.

(** [int(v)] *)
Definition py_int (v : PyVal) : Res Z :=
  match v with
  | PNum q => Ok (py_trunc q)
  | PStr s => match parse_int s with Some z => Ok z | None => Raise ValueError end
  | PNone => Raise TypeError
  end.

Definition get_int (inputs : Dict) (k : string) : Res Z :=
  let* v := getitem inputs k in py_int v.

Definition get_float (inputs : Dict) (k : string) : Res Q :=
  let* v := getitem inputs k in py_float v.

(** The scenario [eval_prob] passes to the simulator (lines 97-110). *)
Definition eval_prob_args (inputs : Dict) (current_bitcoin_price : Q)
  (monthly_investment_delta : Q) (retirement_age_delta_years : Z)
  (monthly_spending_delta : Q) : Res SimArgs :=
  let* current_age := get_int inputs "current_age" in
  let* ra := get_int inputs "retirement_age" in
  let retirement_age := (ra + retirement_age_delta_years)%Z in
  let* life_expectancy := get_int inputs "life_expectancy" in
  let retirement_age := Z.min retirement_age (life_expectancy - 1) in
  let* mi := get_float inputs "monthly_investment" in
  let monthly_investment := py_max 0 (mi + monthly_investment_delta) in
  let* ms := get_float inputs "monthly_spending" in
  let monthly_spending := py_max SPENDING_MIN (ms - monthly_spending_delta) in
  let* current_holdings := get_float inputs "current_holdings" in
  let* tax_rate := py_float (dict_get inputs "tax_rate" (PNum 0)) in
  Ok (mkArgs current_age retirement_age current_holdings monthly_investment
             monthly_spending tax_rate current_bitcoin_price).

Definition eval_prob (inputs : Dict) (current_bitcoin_price : Q) (opt_returns : Mat)
  (monthly_investment_delta : Q) (retirement_age_delta_years : Z)
  (monthly_spending_delta : Q) : Res Q :=
  let* a := eval_prob_args inputs current_bitcoin_price monthly_investment_delta
              retirement_age_delta_years monthly_spending_delta in
  simulate_prob opt_returns a.

(** The three single-lever options (lines 211-238). *)
Definition collect_options (inputs : Dict) (base_invest base_spend : Q) (current_age : Z)
  (found_i : bool) (best_i : Q) (found_r : bool) (best_r : Z) (found_s : bool) (best_s : Q)
  : Res (list option_entry) :=
  let* o_i :=
    if found_i && isfinite best_i && qltb 0 best_i then
      let* n := py_div best_i (py_max base_invest 1) in
      let norm := (OPT_WEIGHT_INVEST * n)%Q in
      let text := cat ["increasing your monthly investment by about "; fmt_money best_i] in
      Ok [("invest", norm, text)]
    else Ok [] in
  let* o_r :=
    if found_r && (0 <? best_r)%Z then
      let* rav := getitem inputs "retirement_age" in
      let* h := py_sub rav (PNum (inject_Z current_age)) in
      let horizon := py_max 1 h in
      let* n := py_div (inject_Z best_r) horizon in
      let norm := (OPT_WEIGHT_RETIRE_YEAR * n)%Q in
      let years_word := if (best_r =? 1)%Z then "year" else "years" in
      let text := cat ["delaying retirement by roughly "; fmt_int best_r; " "; years_word] in
      Ok [("retire", norm, text)]
    else Ok [] in
  let* o_s :=
    if found_s && isfinite best_s && qltb 0 best_s then
      let* n := py_div best_s (py_max base_spend 1) in
      let norm := (OPT_WEIGHT_EXPENSE * n)%Q in
      let text := cat ["cutting monthly expenses by about "; fmt_money best_s] in
      Ok [("spend", norm, text)]
    else Ok [] in
  Ok (o_i ++ o_r ++ o_s)%list.

(** The easing branch, taken when the probability exceeds 90% (lines 241-319). *)
Definition easing_branch (target : Q) (eval_prob : Q -> Z -> Q -> Res Q)
  (base_invest base_spend : Q) (base_retire current_age : Z) : Res string :=
  let invest_reduce_cap := base_invest in
  let* max_ease_invest :=
    ease_bracket_and_bisect target (fun m => eval_prob (- m)%Q 0%Z 0%Q)
      (py_max 50 INVESTMENT_STEP) invest_reduce_cap OPT_GRANULARITY_DOLLARS fuel in
  let max_advance_years := Z.max 0 (base_retire - (current_age + 1)) in
  let* max_ease_retire_years :=
    if (0 <? max_advance_years)%Z then
      let* r := ease_bracket_and_bisect target (fun m => eval_prob 0%Q (- py_round m)%Z 0%Q)
                  1 (inject_Z max_advance_years) OPT_GRANULARITY_YEARS fuel in
      Ok (py_round r)
    else Ok 0%Z in
  let spend_increase_cap := (base_spend * OPT_MAX_EXPENSE_INCREASE_PCT)%Q in
  let* max_ease_spend :=
    ease_bracket_and_bisect target (fun m => eval_prob 0%Q 0%Z (- m)%Q)
      (py_max 50 SPENDING_STEP) spend_increase_cap OPT_GRANULARITY_DOLLARS fuel in
  let phrases :=
    ((if qltb 0 max_ease_invest
      then [cat ["reduce monthly investment by about "; fmt_money max_ease_invest]] else []) ++
     (if (0 <? max_ease_retire_years)%Z
      then [cat ["bring retirement forward by around "; fmt_int max_ease_retire_years; " ";
                 if (max_ease_retire_years =? 1)%Z then "year" else "years"]] else []) ++
     (if qltb 0 max_ease_spend
      then [cat ["increase monthly expenses by about "; fmt_money max_ease_spend]] else []))%list in
  match phrases with
  | [] => Ok msg_comfortable
  | _ =>
      let actions :=
        match phrases with
        | [a] => a
        | [a; b] => cat [a; " or "; b]
        | a :: b :: c :: _ => cat [a; ", "; b; ", or "; c]
        | [] => ""
        end in
      Ok (cat ["Youâ€™re comfortably above the 80â€“90% target. You could "; actions;
               " and still maintain at least an 80% chance of success."])
  end.

(** One [dy] of the combination loop (lines 325-368); the state is
    ([best_combo_text], [best_combo_norm]). *)
Definition combo_step (target : Q) (eval_prob : Q -> Z -> Q -> Res Q) (inputs : Dict)
  (base_invest base_spend : Q) (current_age : Z) (invest_delta_cap spend_delta_cap : Q)
  (st : option string * option Q) (dy : Z) : Res (option string * option Q) :=
  let* '(ci_found, ci_best, _) :=
    bracket_and_bisect target (fun d => eval_prob d dy 0%Q) 0 (py_max 50 INVESTMENT_STEP)
      invest_delta_cap OPT_GRANULARITY_DOLLARS fuel in
  let* st :=
    if ci_found && qltb 0 ci_best then
      let* n1 := py_div ci_best (py_max base_invest 1) in
      let* rav := getitem inputs "retirement_age" in
      let* h := py_sub rav (PNum (inject_Z current_age)) in
      let* n2 := py_div (inject_Z dy) (py_max 1 h) in
      let norm := (n1 + n2)%Q in
      let text := cat ["a blend of delaying retirement by about "; fmt_int dy; " ";
                       if (dy =? 1)%Z then "year" else "years"; " ";
                       "and increasing monthly investment by roughly "; fmt_money ci_best] in
      Ok (if lt_inf norm (snd st) then (Some text, Some norm) else st)
    else Ok st in
  let* '(cs_found, cs_best, _) :=
    bracket_and_bisect target (fun d => eval_prob 0%Q dy d) 0 (py_max 50 SPENDING_STEP)
      spend_delta_cap OPT_GRANULARITY_DOLLARS fuel in
  if cs_found && qltb 0 cs_best then
    let* n1 := py_div cs_best (py_max base_spend 1) in
    let* rav := getitem inputs "retirement_age" in
    let* h := py_sub rav (PNum (inject_Z current_age)) in
    let* n2 := py_div (inject_Z dy) (py_max 1 h) in
    let norm := (n1 + n2)%Q in
    let text := cat ["a blend of delaying retirement by about "; fmt_int dy; " ";
                     if (dy =? 1)%Z then "year" else "years"; " ";
                     "and cutting monthly expenses by roughly "; fmt_money cs_best] in
    Ok (if lt_inf norm (snd st) then (Some text, Some norm) else st)
  else Ok st.

Definition combo_branch (target : Q) (eval_prob : Q -> Z -> Q -> Res Q) (inputs : Dict)
  (base_invest base_spend : Q) (current_age : Z) (max_retire_years : Q)
  (invest_delta_cap spend_delta_cap : Q) : Res string :=
  let* '(best_combo_text, _) :=
    fold_m (combo_step target eval_prob inputs base_invest base_spend current_age
              invest_delta_cap spend_delta_cap)
      (None, None) (range1 (py_trunc max_retire_years)) in
  match best_combo_text with
  | Some t =>
      if String.eqb t "" then Ok msg_infeasible
      else Ok (cat ["To reach at least an 80% chance of success, consider "; t; "."])
  | None => Ok msg_infeasible
  end.

(** The primary recommendation and its alternate (lines 380-393). *)
Definition options_branch (options : list option_entry) : Res string :=
  match sort_entries options with
  | o :: rest =>
      let primary := entry_text o in
      let alternates := map entry_text (firstn OPT_ALTERNATE_COUNT rest) in
      match alternates with
      | a :: _ =>
          Ok (cat ["To reach at least an 80% chance of success, "; primary; " achieves the target. ";
                   "If you prefer a different path, "; a; " also works."])
      | [] => Ok (cat ["To reach at least an 80% chance of success, "; primary;
                       " achieves the target."])
      end
  | [] => Ok msg_fallback
  end.

(** The body of the [try] block (lines 86-394). *)
Definition recommend_body (inputs : Dict) (current_bitcoin_price baseline_prob : Q)
  (n_sims_used : Z) (target : Q) : Res string :=
  let* le := getitem inputs "life_expectancy" in
  let* ca := getitem inputs "current_age" in
  let* d := py_sub le ca in
  let years := (d + 1)%Q in
  let n_sims_opt := Z.max n_sims_used OPT_SIMS_MIN in
  let seed_opt := OPT_SEED in
  let* g := py_float (dict_get inputs "bitcoin_growth_rate" (PNum 10)) in
  let* opt_returns := generate_halving_returns years n_sims_opt seed_opt g in
  let eval_prob := eval_prob inputs current_bitcoin_price opt_returns in
  let* current_prob_opt := eval_prob 0%Q 0%Z 0%Q in
  if Qle_bool OPT_TARGET_PROB current_prob_opt && Qle_bool current_prob_opt OPT_UPPER_TARGET_HINT
  then Ok msg_band else
  let* base_invest := get_float inputs "monthly_investment" in
  let* base_spend := get_float inputs "monthly_spending" in
  let* base_retire := get_int inputs "retirement_age" in
  let* current_age := get_int inputs "current_age" in
  let* le := getitem inputs "life_expectancy" in
  let* le_m1 := py_sub le (PNum 1) in
  let max_retire_years :=
    py_max 0 (py_min (py_min (inject_Z OPT_MAX_RETIRE_DELAY_YEARS)
                             (inject_Z (snd AGE_RANGE - 1 - base_retire)))
                     (le_m1 - inject_Z base_retire)) in
  let invest_cap_total := py_max OPT_MAX_TOTAL_INVESTMENT base_invest in
  let invest_delta_cap := py_max 0 (invest_cap_total - base_invest) in
  let* '(found_i, best_i, prob_i) :=
    bracket_and_bisect target (fun d => eval_prob d 0%Z 0%Q) 0 (py_max 50 INVESTMENT_STEP)
      invest_delta_cap OPT_GRANULARITY_DOLLARS fuel in
  let* '(found_r, best_r_f, prob_r) :=
    bracket_and_bisect target (fun x => eval_prob 0%Q (py_round x) 0%Q) 0 1
      max_retire_years OPT_GRANULARITY_YEARS fuel in
  let best_r := py_round best_r_f in
  let spend_delta_cap :=
    py_max 0 (py_min (base_spend * OPT_MAX_EXPENSE_CUT_PCT) (base_spend - SPENDING_MIN)) in
  let* '(found_s, best_s, prob_s) :=
    bracket_and_bisect target (fun d => eval_prob 0%Q 0%Z d) 0 (py_max 50 SPENDING_STEP)
      spend_delta_cap OPT_GRANULARITY_DOLLARS fuel in
  let* options := collect_options inputs base_invest base_spend current_age
                    found_i best_i found_r best_r found_s best_s in
  if qltb OPT_UPPER_TARGET_HINT current_prob_opt then
    easing_branch target eval_prob base_invest base_spend base_retire current_age
  else if qltb current_prob_opt target && (match options with [] => true | _ => false end) then
    combo_branch target eval_prob inputs base_invest base_spend current_age max_retire_years
      invest_delta_cap spend_delta_cap
  else options_branch options.

(** [try: ... except Exception: return ""]. *)
Definition recommend_adjustments (inputs : Dict) (current_bitcoin_price baseline_prob : Q)
  (n_sims_used : Z) (target : Q) : Res string :=
  match recommend_body inputs current_bitcoin_price baseline_prob n_sims_used target with
  | Raise _ => Ok ""
  | r => r
  end.

(** ** Facts about the optimizer *)

Lemma bind_Ok_inv {A B} (m : Res A) (k : A -> Res B) (b : B) :
  bind m k = Ok b -> exists a, m = Ok a /\ k a = Ok b.
Proof. destruct m as [a| |]; simpl; intro H; [eauto | discriminate | discriminate]. Qed.

(** A computation that, when it returns a string, returns a non-empty one. *)
Definition ok_ne (m : Res string) : Prop := forall s, m = Ok s -> s <> EmptyString.

Lemma ok_ne_bind {A} (m : Res A) (k : A -> Res string) :
  (forall a, ok_ne (k a)) -> ok_ne (bind m k).
Proof.
  intros Hk s H. apply bind_Ok_inv in H. destruct H as [a [_ H]]. exact (Hk a s H).
Qed.

Lemma ok_ne_ret (s : string) : s <> EmptyString -> ok_ne (Ok s).
Proof. intros Hs s' H. congruence. Qed.

Lemma cat_ne (c : ascii) (s : string) (l : list string) : cat (String c s :: l) <> EmptyString.
Proof. discriminate. Qed.

Ltac literal_ne :=
  first [ discriminate
        | apply cat_ne
        | unfold msg_band, msg_comfortable, msg_infeasible, msg_fallback; apply cat_ne
        | unfold msg_band, msg_comfortable, msg_infeasible, msg_fallback; discriminate ].

Lemma easing_ok_ne target ep base_invest base_spend base_retire current_age :
  ok_ne (easing_branch target ep base_invest base_spend base_retire current_age).
Proof.
  unfold easing_branch. cbv zeta.
  apply ok_ne_bind; intro mei. apply ok_ne_bind; intro mery. apply ok_ne_bind; intro mes.
  destruct (_ ++ _)%list; apply ok_ne_ret; literal_ne.
Qed.

Lemma combo_ok_ne target ep inputs base_invest base_spend current_age mry idc sdc :
  ok_ne (combo_branch target ep inputs base_invest base_spend current_age mry idc sdc).
Proof.
  unfold combo_branch. apply ok_ne_bind. intros [[t|] n].
  - destruct (String.eqb t ""); apply ok_ne_ret; literal_ne.
  - apply ok_ne_ret; literal_ne.
Qed.

Lemma options_ok_ne (options : list option_entry) : ok_ne (options_branch options).
Proof.
  unfold options_branch. destruct (sort_entries options) as [|o rest].
  - apply ok_ne_ret; literal_ne.
  - destruct (map entry_text (firstn OPT_ALTERNATE_COUNT rest));
      apply ok_ne_ret; literal_ne.
Qed.

Lemma body_ok_ne inputs price baseline n_sims target :
  ok_ne (recommend_body inputs price baseline n_sims target).
Proof.
  unfold recommend_body. cbv zeta.
  do 5 (apply ok_ne_bind; intro).
  apply ok_ne_bind; intro cpo.
  destruct (_ && _); [apply ok_ne_ret; literal_ne|].
  do 6 (apply ok_ne_bind; intro).
  apply ok_ne_bind; intros [[fi bi] pi].
  apply ok_ne_bind; intros [[fr br] pr].
  apply ok_ne_bind; intros [[fs bs] ps].
  apply ok_ne_bind; intro options.
  destruct (qltb OPT_UPPER_TARGET_HINT cpo); [apply easing_ok_ne|].
  destruct (_ && _); [apply combo_ok_ne | apply options_ok_ne].
Qed.

(** C8: [_recommend_adjustments] never raises: for every inputs dictionary,
    price, baseline probability, simulation count and target, and whatever
    the generator and the simulator return or raise, its result is never an
    exception; when it returns a string, either the [try] body returned that
    string and it is non-empty, or the body raised and the result is [""]. *)
Theorem recommend_never_raises (inputs : Dict) (price baseline : Q) (n_sims : Z) (target : Q) :
  (forall e, recommend_adjustments inputs price baseline n_sims target <> Raise e) /\
  (forall s, recommend_adjustments inputs price baseline n_sims target = Ok s ->
     (recommend_body inputs price baseline n_sims target = Ok s /\ s <> EmptyString) \/
     ((exists e, recommend_body inputs price baseline n_sims target = Raise e) /\
      s = EmptyString)).
Proof.
  unfold recommend_adjustments.
  pose proof (body_ok_ne inputs price baseline n_sims target) as Hne.
  destruct (recommend_body inputs price baseline n_sims target) as [r|e|] eqn:E.
  - split; [discriminate|]. intros s Hs. left. split; [exact Hs | exact (Hne s Hs)].
  - split; [discriminate|]. intros s Hs. right. split; [eauto | congruence].
  - split; discriminate.
Qed.

(** C9: every probability evaluation of the optimizer calls the simulator on
    the scenario built by [eval_prob_args], and for every delta triple that
    scenario has a retirement age at most [int(life_expectancy) - 1], a
    monthly investment [>= 0] and a monthly spending [>= SPENDING_MIN]. *)
Theorem eval_prob_clamps (inputs : Dict) (price : Q) (opt_returns : Mat)
  (dmi : Q) (dry : Z) (dms : Q) :
  eval_prob inputs price opt_returns dmi dry dms =
    (let* a := eval_prob_args inputs price dmi dry dms in simulate_prob opt_returns a) /\
  (forall a, eval_prob_args inputs price dmi dry dms = Ok a ->
   exists life, get_int inputs "life_expectancy" = Ok life /\
     (retirement_age a <= life - 1)%Z /\
     (0 <= monthly_investment a)%Q /\ (SPENDING_MIN <= monthly_spending a)%Q).
Proof.
  split; [reflexivity|]. intros a H. unfold eval_prob_args in H. cbv zeta in H.
  apply bind_Ok_inv in H as [ca [_ H]].
  apply bind_Ok_inv in H as [ra [_ H]].
  apply bind_Ok_inv in H as [life [Hlife H]].
  apply bind_Ok_inv in H as [mi [_ H]].
  apply bind_Ok_inv in H as [ms [_ H]].
  apply bind_Ok_inv in H as [ch [_ H]].
  apply bind_Ok_inv in H as [tax [_ H]].
  injection H as <-. exists life. split; [exact Hlife|]. cbn [retirement_age monthly_investment monthly_spending].
  split; [lia|]. split; apply py_max_ge_l.
Qed.
End Recommend.

(** C7: [bracket_and_bisect] with an evaluator that is [0] everywhere (so
    below the target [0.8] on the whole admissible range [[0, upper_cap]]),
    [lower = 0], [upper_init = 50], [upper_cap = 0] and [granularity = 10]
    returns [(False, 50, 0)]: the initial bracket [max(upper_init, lower +
    granularity)] is never clamped to [upper_cap], so the lever value
    returned is [50], not [upper_cap = 0], and the last evaluation was made
    outside the admissible range. *)
Theorem bracket_uncapped_upper :
  bracket_and_bisect (4 # 5) (fun _ => Ok 0%Q) 0 50 0 10 100 = Ok (false, 50%Q, 0%Q) /\
  ~ (50 == 0)%Q.
Proof. split; [vm_compute; reflexivity | discriminate]. Qed.

(** The C9 scenario at a concrete dictionary: a 40-year delay is clamped to
    [life_expectancy - 1], a [-1000] investment change to [0] and a [10000]
    spending cut to [SPENDING_MIN]. *)
Definition w_inputs : Dict :=
  [("current_age", PNum 30); ("retirement_age", PNum 60); ("life_expectancy", PNum 85);
   ("monthly_investment", PNum 500); ("monthly_spending", PNum 5000);
   ("current_holdings", PNum (1 # 10)); ("tax_rate", PNum 15)].

Lemma eval_prob_clamps_witness :
  eval_prob_args (fun _ => None) (fun _ => None) w_inputs 60000 (-1000) 40 10000 =
    Ok (mkArgs 30 84 (1 # 10) 0 1 15 60000) /\
  exists life, get_int (fun _ => None) w_inputs "life_expectancy" = Ok life /\
    (84 <= life - 1)%Z /\ (0 <= 0)%Q /\ (SPENDING_MIN <= 1)%Q.
Proof.
  assert (H : eval_prob_args (fun _ => None) (fun _ => None) w_inputs 60000 (-1000) 40 10000 =
              Ok (mkArgs 30 84 (1 # 10) 0 1 15 60000)) by (vm_compute; reflexivity).
  split; [exact H|].
  exact (proj2 (eval_prob_clamps (fun _ => None) (fun _ => None)
                  (fun _ _ => Ok 0%Q) w_inputs 60000 (mkMat [] 0) (-1000) 40 10000)
               _ H).
Defined.
End Opt.

(* ------------------------------------------------------------------ *)
(** * [src/calculations.py]: the deterministic calculator

    Floats are exact rationals, as for the simulators.  Python-level
    exceptions use the [Res] monad of [Opt]. *)

Module Calc.
Import Opt.

(** ** [_clamp] (lines 9-12): [max(lo, min(x, hi))] *)
Definition clamp (x lo hi : Q) : Q := py_max lo (py_min x hi).

(** A float that may be [float("inf")]: the funding ratio. *)
Inductive xq := Fin (q : Q) | Inf.

(** [_clamp] of a possibly infinite value: [min(inf, hi)] is [hi]. *)
Definition clamp_x (x : xq) (lo hi : Q) : Q :=
  match x with
  | Fin q => clamp q lo hi
  | Inf => py_max lo hi
  end.

(** ** [compute_health_score_basic] (lines 210-222) *)
Definition compute_health_score_basic (funding_ratio : xq) (runway_years : Q) : Z :=
  let funding_component := (clamp_x funding_ratio 0 (3 # 2) / (3 # 2))%Q in
  let runway_component := clamp (runway_years / 20) 0 1 in
  let score := ((funding_component + runway_component) / 2 * 100)%Q in
  py_round (clamp score 0 100).

(** ** [health_score_from_outputs] (lines 225-273) *)

(** The runway loop: count the leading [h > 0], stop at the first other. *)
Fixpoint runway_count (hs : list Q) : Z :=
  match hs with
  | [] => 0
  | h :: hs' => if qltb 0 h then 1 + runway_count hs' else 0
  end.

Record details := mkDetails {
  funding_ratio : xq;
  runway_years : Z;
  projected_btc : Q;
  btc_needed : Q }.

(** [life_expectancy] only fills a local that is never read afterwards. *)
Definition health_score_from_outputs (projected_btc_at_retirement btc_needed_at_retirement : Q)
  (holdings_series_btc : list Q) (current_age retirement_age : Z) (life_expectancy : option Z)
  : Z * details :=
  let holdings := holdings_series_btc in
  let start_index := Z.max 0 (retirement_age - current_age) in
  let runway_years := runway_count (py_slice_from start_index holdings) in
  let funding_ratio :=
    if Qeq_bool btc_needed_at_retirement 0 then Inf
    else Fin (projected_btc_at_retirement / btc_needed_at_retirement)%Q in
  let score := compute_health_score_basic funding_ratio (inject_Z runway_years) in
  (score, mkDetails funding_ratio runway_years projected_btc_at_retirement btc_needed_at_retirement).


(** ** numpy and Python arithmetic used below *)

(** [b ** e] for a Python float [b] and int [e]: [0.0] to a negative power
    raises [ZeroDivisionError]. *)
Definition py_pow (b : Q) (e : Z) : Res Q :=
  if Qeq_bool b 0 && (e <? 0) then Raise ZeroDivisionError else Ok (b ^ e)%Q.

(** [np.full(n, x)] (and [np.zeros(n)] with [x = 0]): a negative size is a
    [ValueError]. *)
Definition np_full (n : Z) (x : Q) : Res (list Q) :=
  if n <? 0 then Raise ValueError else Ok (repeat x (Z.to_nat n)).

(** An elementwise binary operation on two 1-d arrays, with numpy's
    broadcasting of a length-1 operand; other shape mismatches raise. *)
Definition np_binop (f : Q -> Q -> Q) (a b : list Q) : Res (list Q) :=
  if Nat.eqb (length a) (length b) then Ok (zip_with f a b)
  else match a, b with
       | [x], _ => Ok (map (f x) b)
       | _, [y] => Ok (map (fun x => f x y) a)
       | _, _ => Raise ValueError
       end.

Fixpoint cumsum_acc (acc : Q) (r : list Q) : list Q :=
  match r with
  | [] => []
  | x :: r' => (acc + x)%Q :: cumsum_acc (acc + x)%Q r'
  end.

(** [np.cumsum] *)
Definition np_cumsum (r : list Q) : list Q := cumsum_acc 0 r.

(** [np.sum] *)
Definition np_sum (r : list Q) : Q := fold_right Qplus 0%Q r.

(** [np.arange(a, b)] of ints. *)
Definition np_arange (a b : Z) : list Z := map (fun k => a + Z.of_nat k) (seq 0 (Z.to_nat (b - a))).

(** ** [calculate_future_value] (lines 28-52)

    [years] is an int at every call site.  The [growth_factor] form needs
    the float power [growth_factor ** (1 / years)], kept abstract as
    [float_pow] (the only caller, [calculate_bitcoin_needed], passes
    [annual_growth_rate]).  The threshold [1e-12] is taken as the exact
    [10^-12]. *)
Section FutureValue.
Variable float_pow : Q -> Q -> Q.

Definition calculate_future_value (monthly_investment : Q) (years : Z)
  (annual_growth_rate growth_factor : option Q) : Res Q :=
  if years <? 0 then Raise ValueError else
  if Bool.eqb (match annual_growth_rate with None => true | Some _ => false end)
              (match growth_factor with None => true | Some _ => false end)
  then Raise ValueError else
  let annual_growth_rate :=
    match growth_factor with
    | Some g => if years <=? 0 then Some 0%Q
                else Some ((float_pow g (1 / inject_Z years) - 1) * 100)%Q
    | None => annual_growth_rate
    end in
  let monthly_rate := ((match annual_growth_rate with Some r => r | None => 0 end) / 100 / 12)%Q in
  let n := years * 12 in
  if qltb (Qabs monthly_rate) (1 # 1000000000000) then Ok (monthly_investment * inject_Z n)%Q
  else Ok (monthly_investment * (((1 + monthly_rate) ^ n - 1) / monthly_rate) * (1 + monthly_rate))%Q.

(** ** [calculate_total_future_expenses] (lines 55-60) *)
Definition calculate_total_future_expenses (annual_expense : Q) (years : Z) (inflation_rate : Q)
  : Res Q :=
  let rate := (inflation_rate / 100)%Q in
  if Qeq_bool rate 0 then Ok (annual_expense * inject_Z years)%Q else
  let* p := py_pow (1 + rate) years in
  Ok (annual_expense * ((p - 1) / rate) * (1 + rate))%Q.

(** ** [calculate_bitcoin_needed] (lines 63-127)

    The numpy power [growth_factor ** retirement_years] and the division by
    [projected_prices] do not raise (numpy yields [inf] or [nan] at a zero
    price); over [Q] they are [Qpower] and [Qdiv], and the theorems below
    assume positive prices. *)
Record RetirementPlan := mkPlan {
  bitcoin_needed : Q;
  life_expectancy : Z;
  total_bitcoin_holdings : Q;
  future_investment_value : Q;
  annual_expense_at_retirement : Q;
  future_bitcoin_price : Q;
  total_retirement_expenses : Q }.

Definition calculate_bitcoin_needed (monthly_spending : Q)
  (current_age retirement_age life_expectancy : Z)
  (bitcoin_growth_rate inflation_rate current_holdings monthly_investment
   current_bitcoin_price tax_rate : Q) : Res RetirementPlan :=
  let years_until_retirement := retirement_age - current_age in
  let retirement_duration := life_expectancy - retirement_age in
  let* inflation_factor := py_pow (1 + inflation_rate / 100)%Q years_until_retirement in
  let annual_expense_at_retirement := (monthly_spending * 12 * inflation_factor)%Q in
  let* total_retirement_expenses :=
    calculate_total_future_expenses annual_expense_at_retirement retirement_duration inflation_rate in
  let growth_factor := (1 + bitcoin_growth_rate / 100)%Q in
  let inflation_multiplier := (1 + inflation_rate / 100)%Q in
  let retirement_years :=
    np_arange years_until_retirement (years_until_retirement + retirement_duration) in
  let projected_prices := map (fun t => current_bitcoin_price * growth_factor ^ t)%Q retirement_years in
  let gross := gross_up tax_rate in
  let yearly_expenses :=
    map (fun t => monthly_spending * 12 * inflation_multiplier ^ t * gross)%Q retirement_years in
  let bitcoin_needed := np_sum (zip_with Qdiv yearly_expenses projected_prices) in
  let* gpow := py_pow growth_factor years_until_retirement in
  let future_bitcoin_price := (current_bitcoin_price * gpow)%Q in
  let* future_investment_value :=
    calculate_future_value monthly_investment years_until_retirement (Some bitcoin_growth_rate) None in
  let* bitcoin_from_investments := py_div future_investment_value future_bitcoin_price in
  let total_bitcoin_holdings := (current_holdings + bitcoin_from_investments)%Q in
  Ok (mkPlan bitcoin_needed life_expectancy total_bitcoin_holdings future_investment_value
        annual_expense_at_retirement future_bitcoin_price total_retirement_expenses).
End FutureValue.

(** ** [project_holdings_over_time] (lines 130-207)

    The division by [prices] is [Qdiv] (numpy yields [inf] or [nan] at a zero
    price; the theorems below assume positive prices). *)
Definition project_holdings_over_time (current_age retirement_age life_expectancy : Z)
  (bitcoin_growth_rate inflation_rate current_holdings monthly_investment monthly_spending
   current_bitcoin_price tax_rate : Q) : Res (list Q) :=
  if retirement_age >? life_expectancy then Raise ValueError else
  let years := life_expectancy - current_age + 1 in
  let years_until_retirement := retirement_age - current_age in
  let growth_multiplier := (1 + bitcoin_growth_rate / 100)%Q in
  let inflation_multiplier := (1 + inflation_rate / 100)%Q in
  let* gfull := np_full (years - 1) growth_multiplier in
  let price_factors := np_cumprod (1%Q :: gfull) in
  let prices := map (Qmult current_bitcoin_price) price_factors in
  let* ipow := py_pow inflation_multiplier years_until_retirement in
  let annual_expense_at_retirement := (monthly_spending * 12 * ipow)%Q in
  let pre_retirement_years := Z.max years_until_retirement 0 in
  let post_retirement_years := years - pre_retirement_years in
  let* ifull := np_full (Z.max (post_retirement_years - 1) 0) inflation_multiplier in
  let expense_factors := np_cumprod (1%Q :: ifull) in
  let gross := gross_up tax_rate in
  let expenses_after_retirement :=
    map (fun f => annual_expense_at_retirement * f * gross)%Q expense_factors in
  let* zeros_pre := np_full pre_retirement_years 0 in
  let expenses_usd := zeros_pre ++ expenses_after_retirement in
  let* invest_pre := np_full pre_retirement_years (monthly_investment * 12)%Q in
  let* zeros_post := np_full post_retirement_years 0 in
  let investments_usd := invest_pre ++ zeros_post in
  let* diff := np_binop Qminus investments_usd expenses_usd in
  let* btc_change := np_binop Qdiv diff prices in
  let holdings := map (Qplus current_holdings) (np_cumsum btc_change) in
  Ok (map (fun h => np_maximum h 0) holdings).


(** ** Lemmas on the Python helpers *)

Lemma qltb_false (a b : Q) : qltb a b = false -> (b <= a)%Q.
Proof. unfold qltb. intro H. apply negb_false_iff in H. now apply Qle_bool_iff. Qed.

Lemma qle_bool_false (a b : Q) : Qle_bool a b = false -> (b < a)%Q.
Proof.
  intro H. apply Qnot_le_lt. intro H'. apply Qle_bool_iff in H'. congruence.
Qed.

Lemma Qeq_bool_false (a b : Q) : ~ (a == b)%Q -> Qeq_bool a b = false.
Proof.
  intro H. destruct (Qeq_bool a b) eqn:E; [|reflexivity].
  apply Qeq_bool_iff in E. contradiction.
Qed.

Ltac qbool :=
  repeat match goal with
  | H : qltb _ _ = true |- _ => apply qltb_true in H
  | H : qltb _ _ = false |- _ => apply qltb_false in H
  | H : Qle_bool _ _ = true |- _ => apply Qle_bool_iff in H
  | H : Qle_bool _ _ = false |- _ => apply qle_bool_false in H
  | H : Qeq_bool _ _ = true |- _ => apply Qeq_bool_iff in H
  | H : Qeq_bool _ _ = false |- _ => apply Qeq_bool_neq in H
  end.

Lemma py_max_cases (a b : Q) : (a <= py_max a b /\ b <= py_max a b)%Q /\
  (py_max a b = a \/ py_max a b = b).
Proof.
  unfold py_max. destruct (qltb a b) eqn:E; qbool; split; auto; split; lra.
Qed.

Lemma py_min_cases (a b : Q) : (py_min a b <= a /\ py_min a b <= b)%Q /\
  (py_min a b = a \/ py_min a b = b).
Proof.
  unfold py_min. destruct (qltb b a) eqn:E; qbool; split; auto; split; lra.
Qed.

Lemma clamp_bounds (x lo hi : Q) : (lo <= hi)%Q -> (lo <= clamp x lo hi <= hi)%Q.
Proof.
  intro H. unfold clamp.
  destruct (py_min_cases x hi) as [[Hm1 Hm2] _].
  destruct (py_max_cases lo (py_min x hi)) as [[Hx1 Hx2] [E|E]]; rewrite E in *; lra.
Qed.

Lemma py_max_mono (a b c d : Q) : (a <= c)%Q -> (b <= d)%Q -> (py_max a b <= py_max c d)%Q.
Proof.
  intros H1 H2. unfold py_max.
  destruct (qltb a b) eqn:E1, (qltb c d) eqn:E2; qbool; lra.
Qed.

Lemma py_min_mono (a b c d : Q) : (a <= c)%Q -> (b <= d)%Q -> (py_min a b <= py_min c d)%Q.
Proof.
  intros H1 H2. unfold py_min.
  destruct (qltb b a) eqn:E1, (qltb d c) eqn:E2; qbool; lra.
Qed.

Lemma clamp_mono (x y lo hi : Q) : (x <= y)%Q -> (clamp x lo hi <= clamp y lo hi)%Q.
Proof.
  intro H. unfold clamp. apply py_max_mono; [lra|]. apply py_min_mono; lra.
Qed.

Lemma clamp_hi (x lo hi : Q) : (lo <= hi)%Q -> (hi <= x)%Q -> clamp x lo hi == hi.
Proof.
  intros H1 H2. unfold clamp, py_min, py_max.
  destruct (qltb hi x) eqn:E1; qbool.
  - destruct (qltb lo hi) eqn:E2; qbool; lra.
  - destruct (qltb lo x) eqn:E2; qbool; lra.
Qed.

Lemma clamp_lo (x lo hi : Q) : (lo <= hi)%Q -> (x <= lo)%Q -> clamp x lo hi == lo.
Proof.
  intros H1 H2. unfold clamp, py_min, py_max.
  destruct (qltb hi x) eqn:E1; qbool.
  - destruct (qltb lo hi) eqn:E2; qbool; lra.
  - destruct (qltb lo x) eqn:E2; qbool; lra.
Qed.

(** The order on possibly infinite floats. *)
Definition xq_le (a b : xq) : Prop :=
  match a, b with
  | Fin x, Fin y => (x <= y)%Q
  | _, Inf => True
  | Inf, Fin _ => False
  end.

Lemma clamp_x_bounds (x : xq) (lo hi : Q) : (lo <= hi)%Q -> (lo <= clamp_x x lo hi <= hi)%Q.
Proof.
  intro H. destruct x as [q|]; simpl; [now apply clamp_bounds|].
  destruct (py_max_cases lo hi) as [[H1 H2] [E|E]]; rewrite E in *; lra.
Qed.

Lemma clamp_x_mono (x y : xq) (lo hi : Q) : (lo <= hi)%Q -> xq_le x y ->
  (clamp_x x lo hi <= clamp_x y lo hi)%Q.
Proof.
  intros H Hle. destruct x as [a|], y as [b|]; simpl in *; try contradiction.
  - now apply clamp_mono.
  - unfold clamp. apply py_max_mono; [lra|]. apply (proj1 (py_min_cases a hi)).
  - lra.
Qed.

Lemma py_round_spec (q : Q) :
  (py_round q = Qfloor q \/ py_round q = Qfloor q + 1) /\
  (py_round q = Qfloor q + 1 -> ((1 # 2) <= q - inject_Z (Qfloor q))%Q) /\
  (((1 # 2) < q - inject_Z (Qfloor q))%Q -> py_round q = Qfloor q + 1).
Proof.
  unfold py_round. cbv zeta.
  set (f := Qfloor q).
  destruct (qltb (q - inject_Z f) (1 # 2)) eqn:E1; qbool.
  - split; [left; reflexivity|]. split; [lia | intro; lra].
  - destruct (qltb (1 # 2) (q - inject_Z f)) eqn:E2; qbool.
    + split; [right; reflexivity|]. split; [intros; lra | reflexivity].
    + destruct (Z.even f).
      * split; [left; reflexivity|]. split; [lia | intro; lra].
      * split; [right; reflexivity|]. split; [intros; lra | intro; lra].
Qed.

Lemma floor_bounds (q : Q) : (inject_Z (Qfloor q) <= q < inject_Z (Qfloor q) + 1)%Q.
Proof.
  split; [apply Qfloor_le|].
  pose proof (Qlt_floor q) as H. rewrite inject_Z_plus in H. exact H.
Qed.

Lemma py_round_bounds (a b : Z) (q : Q) :
  (inject_Z a <= q)%Q -> (q <= inject_Z b)%Q -> a <= py_round q <= b.
Proof.
  intros Ha Hb. pose proof (floor_bounds q) as [F1 F2].
  assert (La : a <= Qfloor q) by (rewrite <- (Qfloor_Z a); now apply Qfloor_resp_le).
  assert (Lb : Qfloor q <= b) by (rewrite <- (Qfloor_Z b); now apply Qfloor_resp_le).
  destruct (py_round_spec q) as [[E|E] [H1 _]]; rewrite E; [lia|].
  specialize (H1 E).
  assert (Qfloor q < b) by (rewrite Zlt_Qlt; lra).
  lia.
Qed.

Lemma py_round_mono (q1 q2 : Q) : (q1 <= q2)%Q -> py_round q1 <= py_round q2.
Proof.
  intro H.
  pose proof (floor_bounds q1) as [A1 A2]. pose proof (floor_bounds q2) as [B1 B2].
  assert (Hf : Qfloor q1 <= Qfloor q2) by (apply Qfloor_resp_le; exact H).
  destruct (Z.eq_dec (Qfloor q1) (Qfloor q2)) as [Ef|Nf].
  - destruct (py_round_spec q1) as [[E1|E1] [H1 _]]; rewrite E1;
      destruct (py_round_spec q2) as [[E2|E2] [_ H2]]; rewrite E2; try lia.
    specialize (H1 E1). rewrite Ef in H1.
    destruct (Qlt_le_dec (1 # 2) (q2 - inject_Z (Qfloor q2))) as [L|L].
    + rewrite (H2 L) in E2. lia.
    + (* both fractional parts are exactly one half: same floor, same parity *)
      assert (Hq : q1 == q2) by lra.
      assert (Er : py_round q1 = py_round q2).
      { unfold py_round. cbv zeta. rewrite Ef.
        destruct (qltb (q1 - inject_Z (Qfloor q2)) (1 # 2)) eqn:X1,
                 (qltb (q2 - inject_Z (Qfloor q2)) (1 # 2)) eqn:X2; qbool; try lra;
        destruct (qltb (1 # 2) (q1 - inject_Z (Qfloor q2))) eqn:Y1,
                 (qltb (1 # 2) (q2 - inject_Z (Qfloor q2))) eqn:Y2; qbool; try lra;
        reflexivity. }
      lia.
  - destruct (py_round_spec q1) as [[E1|E1] _]; rewrite E1;
      destruct (py_round_spec q2) as [[E2|E2] _]; rewrite E2; lia.
Qed.


Lemma py_round_Qeq (q1 q2 : Q) : q1 == q2 -> py_round q1 = py_round q2.
Proof.
  intro H. apply Z.le_antisymm; apply py_round_mono; rewrite H; apply Qle_refl.
Qed.

Ltac qconst :=
  unfold Qdiv in *; change (/ (3 # 2)) with (2 # 3) in *; change (/ 2) with (1 # 2) in *;
  change (/ 20) with (1 # 20) in *.

(** X1: [compute_health_score_basic] returns an int in [[0, 100]] for every
    funding ratio (also [inf]) and runway; it is [100] as soon as the
    funding ratio is at least [1.5] and the runway at least [20] years, and
    [0] when both are at most [0]. *)
Theorem health_score_basic_range (fr : xq) (ry : Q) :
  0 <= compute_health_score_basic fr ry <= 100 /\
  (xq_le (Fin (3 # 2)) fr -> (20 <= ry)%Q -> compute_health_score_basic fr ry = 100) /\
  (xq_le fr (Fin 0) -> (ry <= 0)%Q -> compute_health_score_basic fr ry = 0).
Proof.
  unfold compute_health_score_basic. cbv zeta.
  set (fc := clamp_x fr 0 (3 # 2)). set (rc := clamp (ry / 20) 0 1).
  split; [|split].
  - pose proof (clamp_bounds ((fc / (3 # 2) + rc) / 2 * 100) 0 100) as B.
    apply py_round_bounds; apply B; discriminate.
  - intros Hf Hr.
    assert (Hfc : fc == 3 # 2).
    { subst fc. destruct fr as [q|]; simpl in Hf |- *.
      - apply clamp_hi; [discriminate | exact Hf].
      - reflexivity. }
    assert (Hrc : rc == 1) by (apply clamp_hi; [discriminate | qconst; lra]).
    rewrite (py_round_Qeq _ 100); [reflexivity|].
    apply clamp_hi; [discriminate|]. rewrite Hfc, Hrc. discriminate.
  - intros Hf Hr.
    assert (Hfc : fc == 0).
    { subst fc. destruct fr as [q|]; simpl in Hf |- *; [|contradiction].
      apply clamp_lo; [discriminate | exact Hf]. }
    assert (Hrc : rc == 0) by (apply clamp_lo; [discriminate | qconst; lra]).
    rewrite (py_round_Qeq _ 0); [reflexivity|].
    apply clamp_lo; [discriminate|]. rewrite Hfc, Hrc. discriminate.
Qed.

Lemma health_score_basic_range_witness :
  compute_health_score_basic (Fin 2) 40 = 100 /\ compute_health_score_basic Inf 0 = 50 /\
  compute_health_score_basic (Fin (-1)) (-3) = 0.
Proof.
  split; [|split].
  - apply (proj1 (proj2 (health_score_basic_range (Fin 2) 40))); simpl; discriminate.
  - vm_compute. reflexivity.
  - apply (proj2 (proj2 (health_score_basic_range (Fin (-1)) (-3)))); simpl; discriminate.
Defined.

(** X2: [compute_health_score_basic] is monotone: a larger funding ratio
    ([inf] being the largest) and a longer runway never give a lower score. *)
Theorem health_score_basic_mono (f1 f2 : xq) (r1 r2 : Q) :
  xq_le f1 f2 -> (r1 <= r2)%Q ->
  compute_health_score_basic f1 r1 <= compute_health_score_basic f2 r2.
Proof.
  intros Hf Hr. unfold compute_health_score_basic. cbv zeta.
  apply py_round_mono. apply clamp_mono.
  pose proof (clamp_x_mono f1 f2 0 (3 # 2) ltac:(discriminate) Hf) as H1.
  assert (H2 : (clamp (r1 / 20) 0 1 <= clamp (r2 / 20) 0 1)%Q) by (apply clamp_mono; qconst; lra).
  qconst. lra.
Qed.

Lemma health_score_basic_mono_witness :
  xq_le (Fin 1) Inf /\ (5 <= 10)%Q /\
  compute_health_score_basic (Fin 1) 5 <= compute_health_score_basic Inf 10.
Proof.
  split; [exact I|]. split; [discriminate|].
  apply health_score_basic_mono; [exact I | discriminate].
Defined.

(** X4: when the BTC needed at retirement is [0], [health_score_from_outputs]
    sets the funding ratio to [inf], and the score is between [50] and
    [100] whatever the holdings series. *)
Theorem health_zero_needed_inf (projected needed : Q) (hs : list Q)
  (current_age retirement_age : Z) (life_expectancy : option Z) :
  needed == 0 ->
  let res := health_score_from_outputs projected needed hs current_age retirement_age life_expectancy in
  funding_ratio (snd res) = Inf /\ 50 <= fst res <= 100.
Proof.
  intros Hn. cbv zeta. unfold health_score_from_outputs. cbv zeta.
  assert (E : Qeq_bool needed 0 = true) by (apply Qeq_bool_iff; exact Hn).
  rewrite E. simpl. split; [reflexivity|].
  unfold compute_health_score_basic. cbv zeta.
  set (rc := clamp (inject_Z _ / 20) 0 1).
  pose proof (clamp_bounds (inject_Z (runway_count (py_slice_from (Z.max 0 (retirement_age - current_age)) hs)) / 20) 0 1 ltac:(discriminate)) as Hrc.
  fold rc in Hrc.
  change (clamp_x Inf 0 (3 # 2)) with (3 # 2)%Q.
  set (x := (((3 # 2) / (3 # 2) + rc) / 2 * 100)%Q).
  assert (Hx : (50 <= x <= 100)%Q) by (subst x; qconst; lra).
  pose proof (clamp_mono 50 x 0 100 (proj1 Hx)) as L.
  pose proof (clamp_bounds x 0 100 ltac:(discriminate)) as B.
  change (clamp 50 0 100) with 50%Q in L.
  apply py_round_bounds; unfold inject_Z; lra.
Qed.

Lemma health_zero_needed_inf_witness :
  (0 # 7) == 0 /\
  funding_ratio (snd (health_score_from_outputs 3 (0 # 7) [3; 2; 0]%Q 30 31 None)) = Inf /\
  50 <= fst (health_score_from_outputs 3 (0 # 7) [3; 2; 0]%Q 30 31 None) <= 100.
Proof.
  split; [reflexivity|].
  exact (health_zero_needed_inf 3 (0 # 7) [3; 2; 0]%Q 30 31 None (eq_refl _)).
Defined.


(** ** Sums and powers *)

(** [f 0 + f 1 + ... + f (n - 1)] *)
Fixpoint qsum (f : nat -> Q) (n : nat) : Q :=
  match n with
  | O => 0%Q
  | S k => (qsum f k + f k)%Q
  end.

Definition is_none {A} (o : option A) : bool :=
  match o with None => true | Some _ => false end.

Lemma qpow_S (x : Q) (n : nat) : (x ^ Z.of_nat (S n) == x ^ Z.of_nat n * x)%Q.
Proof.
  rewrite Nat2Z.inj_succ, <- Z.add_1_r, Qpower_plus' by lia. reflexivity.
Qed.

Lemma qsum_ext (f g : nat -> Q) (n : nat) :
  (forall k, (k < n)%nat -> f k == g k) -> qsum f n == qsum g n.
Proof.
  induction n as [|n IH]; intro H; simpl; [reflexivity|].
  rewrite IH by (intros; apply H; lia). rewrite (H n) by lia. reflexivity.
Qed.

Lemma qsum_const (c : Q) (n : nat) : (qsum (fun _ => c) n == c * inject_Z (Z.of_nat n))%Q.
Proof.
  induction n as [|n IH]; cbn [qsum]; [simpl; ring|].
  rewrite IH, Nat2Z.inj_succ, <- Z.add_1_r, inject_Z_plus. ring.
Qed.

(** The closed form of the annuity used by [calculate_future_value] and
    [calculate_total_future_expenses]. *)
Lemma geometric_sum (a r : Q) (n : nat) : ~ r == 0 ->
  (qsum (fun k => a * (1 + r) ^ Z.of_nat (S k)) n == a * (((1 + r) ^ Z.of_nat n - 1) / r) * (1 + r))%Q.
Proof.
  intro Hr. induction n as [|n IH]; simpl qsum.
  - simpl. field. exact Hr.
  - change (Qpower_positive (1 + r) (Pos.of_succ_nat n)) with ((1 + r) ^ Z.of_nat (S n))%Q.
    rewrite IH, !qpow_S. field. exact Hr.
Qed.

Lemma py_pow_nonneg (b : Q) (e : Z) : 0 <= e -> py_pow b e = Ok (b ^ e)%Q.
Proof.
  intro H. unfold py_pow. replace (e <? 0) with false by lia. now rewrite andb_false_r.
Qed.

Lemma py_pow_cases (b : Q) (e : Z) :
  (exists r, py_pow b e = Ok r) \/ py_pow b e = Raise ZeroDivisionError.
Proof. unfold py_pow. destruct (_ && _); [right; reflexivity | left; eexists; reflexivity]. Qed.

Lemma total_future_expenses_cases (annual_expense : Q) (years : Z) (inflation_rate : Q) :
  (exists s, calculate_total_future_expenses annual_expense years inflation_rate = Ok s) \/
  (exists e, calculate_total_future_expenses annual_expense years inflation_rate = Raise e).
Proof.
  unfold calculate_total_future_expenses. cbv zeta.
  destruct (Qeq_bool _ _); [left; eexists; reflexivity|].
  destruct (py_pow_cases (1 + inflation_rate / 100) years) as [[r E] | E]; rewrite E; cbn [bind].
  - left. eexists. reflexivity.
  - right. eexists. reflexivity.
Qed.

(** The closed form of [calculate_total_future_expenses] over [Q]. *)
Lemma total_future_expenses_closed (annual_expense inflation_rate : Q) (years : nat) :
  exists s, calculate_total_future_expenses annual_expense (Z.of_nat years) inflation_rate = Ok s /\
  (s == qsum (fun k => annual_expense * (1 + inflation_rate / 100) ^ Z.of_nat (S k)) years)%Q.
Proof.
  unfold calculate_total_future_expenses. cbv zeta.
  destruct (Qeq_bool (inflation_rate / 100) 0) eqn:E; qbool.
  - eexists. split; [reflexivity|].
    rewrite (qsum_ext _ (fun _ => annual_expense)).
    + symmetry. apply qsum_const.
    + intros k _. rewrite E. rewrite Qplus_0_r, Qpower_1. ring.
  - rewrite py_pow_nonneg by lia. simpl. eexists. split; [reflexivity|].
    symmetry. now apply geometric_sum.
Qed.

(** The two checks of [calculate_future_value] and their outcome over [Q]. *)
Lemma future_value_cases (float_pow : Q -> Q -> Q) (monthly_investment : Q) (years : Z)
  (annual_growth_rate growth_factor : option Q) :
  match calculate_future_value float_pow monthly_investment years annual_growth_rate growth_factor with
  | Ok _ => 0 <= years /\ is_none annual_growth_rate <> is_none growth_factor
  | Raise e => e = ValueError /\
      (years < 0 \/ is_none annual_growth_rate = is_none growth_factor)
  | OutOfFuel => False
  end.
Proof.
  unfold calculate_future_value.
  destruct (years <? 0) eqn:Y; [split; [reflexivity | left; lia]|].
  fold (is_none annual_growth_rate) (is_none growth_factor).
  destruct (Bool.eqb (is_none annual_growth_rate) (is_none growth_factor)) eqn:B.
  - apply Bool.eqb_prop in B. split; [reflexivity | right; exact B].
  - cbv zeta.
    assert (N : is_none annual_growth_rate <> is_none growth_factor)
      by (intro C; rewrite C, Bool.eqb_reflx in B; discriminate).
    destruct (qltb _ _); (split; [lia | exact N]).
Qed.

(** X5: whenever [calculate_total_future_expenses(annual_expense, years,
    inflation_rate)] returns for [years >= 0] (the float power [(1 + r) **
    years] may raise [OverflowError] instead), its value is the sum of the
    [years] yearly expenses [annual_expense * (1 + r)^k] for [k = 1 ..
    years] ([r = inflation_rate / 100]), also when [r = 0]: the first year
    already carries one year of inflation. *)
Theorem total_future_expenses_sum (annual_expense inflation_rate : Q) (years : nat) (s : Q) :
  calculate_total_future_expenses annual_expense (Z.of_nat years) inflation_rate = Ok s ->
  (s == qsum (fun k => annual_expense * (1 + inflation_rate / 100) ^ Z.of_nat (S k)) years)%Q.
Proof.
  intro Hs.
  destruct (total_future_expenses_closed annual_expense inflation_rate years) as [s' [Hs' Hsum]].
  rewrite Hs in Hs'. injection Hs' as ->. exact Hsum.
Qed.

Lemma total_future_expenses_sum_witness :
  exists s, calculate_total_future_expenses 12000 (Z.of_nat 3) 5 = Ok s /\
    (s == qsum (fun k => 12000 * (1 + 5 / 100) ^ Z.of_nat (S k)) 3)%Q.
Proof.
  eexists. split; [reflexivity|].
  apply (total_future_expenses_sum 12000 5 3). reflexivity.
Defined.

(** X6: [calculate_future_value] raises [ValueError] when [years < 0] or
    when not exactly one of [annual_growth_rate] and [growth_factor] is
    given (both checks come before any arithmetic), and when it returns a
    value, [years >= 0] and exactly one of the two was given. *)
Theorem future_value_errors (float_pow : Q -> Q -> Q) (monthly_investment : Q) (years : Z)
  (annual_growth_rate growth_factor : option Q) :
  ((years < 0 \/ is_none annual_growth_rate = is_none growth_factor) ->
   calculate_future_value float_pow monthly_investment years annual_growth_rate growth_factor =
     Raise ValueError) /\
  (forall v, calculate_future_value float_pow monthly_investment years annual_growth_rate
               growth_factor = Ok v ->
   0 <= years /\ is_none annual_growth_rate <> is_none growth_factor).
Proof.
  pose proof (future_value_cases float_pow monthly_investment years annual_growth_rate
                growth_factor) as F.
  destruct (calculate_future_value float_pow monthly_investment years annual_growth_rate
              growth_factor) as [v|e|].
  - split; [|intros v' _; exact F].
    intros [H|H]; exfalso; destruct F as [F1 F2]; [lia | contradiction].
  - destruct F as [-> F]. split; [reflexivity | intros v C; discriminate C].
  - contradiction.
Qed.

(** X7: with [annual_growth_rate = rate] and [years >= 0],
    [calculate_future_value] returns, for a monthly rate [m = rate / 100 /
    12] of absolute value at least [1e-12], the value of [12 * years]
    monthly deposits each compounded from its month on: the sum of
    [monthly_investment * (1 + m)^k] for [k = 1 .. 12 * years]; below that
    threshold it returns the plain total [monthly_investment * 12 * years]. *)
Theorem future_value_monthly_sum (float_pow : Q -> Q -> Q) (monthly_investment rate : Q)
  (years : nat) :
  let m := (rate / 100 / 12)%Q in
  exists v, calculate_future_value float_pow monthly_investment (Z.of_nat years) (Some rate) None = Ok v /\
  ((Qabs m < 1 # 1000000000000)%Q -> v == monthly_investment * inject_Z (Z.of_nat (12 * years))) /\
  ((1 # 1000000000000 <= Qabs m)%Q ->
     (v == qsum (fun k => monthly_investment * (1 + m) ^ Z.of_nat (S k)) (12 * years))%Q).
Proof.
  cbv zeta. unfold calculate_future_value.
  assert (Y : (Z.of_nat years <? 0) = false) by (apply Z.ltb_ge; lia).
  rewrite Y. simpl Bool.eqb. cbv iota zeta.
  replace (Z.of_nat years * 12) with (Z.of_nat (12 * years)) by lia.
  destruct (qltb (Qabs (rate / 100 / 12)) (1 # 1000000000000)) eqn:E; qbool.
  - eexists. split; [reflexivity|]. split; [reflexivity | intro; lra].
  - eexists. split; [reflexivity|]. split; [intro; lra|]. intros _.
    symmetry. apply geometric_sum. intro Z0.
    assert (Qabs (rate / 100 / 12) == 0) by (rewrite Z0; reflexivity). lra.
Qed.

Lemma future_value_monthly_sum_witness :
  exists v, calculate_future_value (fun _ _ => 0%Q) 100 (Z.of_nat 1) (Some 12%Q) None = Ok v /\
  (v == qsum (fun k => 100 * (1 + 12 / 100 / 12) ^ Z.of_nat (S k)) 12)%Q.
Proof.
  destruct (future_value_monthly_sum (fun _ _ => 0%Q) 100 12 1) as [v [Hv [_ H2]]].
  exists v. split; [exact Hv|]. apply H2. vm_compute. discriminate.
Defined.


(** ** Lists: sums, [nth] and the numpy helpers *)

Lemma np_sum_app (a b : list Q) : (np_sum (a ++ b) == np_sum a + np_sum b)%Q.
Proof. induction a as [|x a IH]; simpl; [ring|]. unfold np_sum in *. rewrite IH. ring. Qed.

Lemma np_sum_seq (h : nat -> Q) (d : nat) : np_sum (map h (seq 0 d)) == qsum h d.
Proof.
  induction d as [|d IH]; [reflexivity|].
  rewrite seq_S, map_app, np_sum_app, IH. cbn [qsum]. simpl. unfold np_sum. simpl. ring.
Qed.

Lemma zip_with_map {A B C D} (f : A -> B -> C) (g : D -> A) (h : D -> B) (l : list D) :
  zip_with f (map g l) (map h l) = map (fun x => f (g x) (h x)) l.
Proof. induction l as [|x l IH]; simpl; [reflexivity|]. now rewrite IH. Qed.

Lemma qpow_add_nat (x : Q) (a b : nat) :
  (x ^ Z.of_nat (a + b) == x ^ Z.of_nat a * x ^ Z.of_nat b)%Q.
Proof.
  destruct (Nat.eq_dec (a + b) 0) as [E|E].
  - assert (a = 0%nat) by lia. assert (b = 0%nat) by lia. subst. reflexivity.
  - rewrite Nat2Z.inj_add. apply Qpower_plus'. lia.
Qed.

Lemma qpow_pos (x : Q) (n : nat) : (0 < x -> 0 < x ^ Z.of_nat n)%Q.
Proof.
  intro H. induction n as [|n IH]; [reflexivity|].
  rewrite qpow_S. apply Qmult_lt_0_compat; assumption.
Qed.

(** X8: [calculate_bitcoin_needed] never returns when the retirement age
    is below the current age: it raises, at the latest when
    [calculate_future_value], called with a negative number of years,
    raises [ValueError] (an earlier power can raise first, e.g. [0.0 **
    negative] for an inflation or growth rate of [-100] raises
    [ZeroDivisionError]). *)
Theorem bitcoin_needed_past_retirement (float_pow : Q -> Q -> Q) (monthly_spending : Q)
  (current_age retirement_age life_expectancy : Z)
  (bitcoin_growth_rate inflation_rate current_holdings monthly_investment
   current_bitcoin_price tax_rate : Q) :
  retirement_age < current_age ->
  exists e, calculate_bitcoin_needed float_pow monthly_spending current_age retirement_age
    life_expectancy bitcoin_growth_rate inflation_rate current_holdings monthly_investment
    current_bitcoin_price tax_rate = Raise e.
Proof.
  intros Hr. unfold calculate_bitcoin_needed. cbv zeta.
  destruct (py_pow_cases (1 + inflation_rate / 100) (retirement_age - current_age))
    as [[x E1] | E1]; rewrite E1; cbn [bind]; [|eauto].
  destruct (total_future_expenses_cases (monthly_spending * 12 * x) (life_expectancy - retirement_age)
              inflation_rate) as [[y E2] | [e E2]]; rewrite E2; cbn [bind]; [|eauto].
  destruct (py_pow_cases (1 + bitcoin_growth_rate / 100) (retirement_age - current_age))
    as [[z E3] | E3]; rewrite E3; cbn [bind]; [|eauto].
  unfold calculate_future_value. replace (retirement_age - current_age <? 0) with true by lia.
  cbn [bind]. eauto.
Qed.

Lemma bitcoin_needed_past_retirement_witness :
  exists e, calculate_bitcoin_needed (fun _ _ => 0%Q) 5000 40 30 85 21 5 (1 # 10) 500 60000 15 =
    Raise e.
Proof. apply bitcoin_needed_past_retirement. lia. Defined.

(** X9: for [current_age <= retirement_age <= life_expectancy], a positive
    price and a growth rate above [-100], [calculate_bitcoin_needed]
    returns a plan in which, with [y] the years until retirement, [d] the
    retirement years, [i = 1 + inflation_rate / 100], [g = 1 +
    bitcoin_growth_rate / 100] and [A = monthly_spending * 12 * i^y]:
    [annual_expense_at_retirement = A], [future_bitcoin_price = price *
    g^y], [bitcoin_needed] is the sum over [j = 0 .. d - 1] of [A * i^j *
    gross / (price * g^(y + j))], and [total_retirement_expenses] is the
    sum over [j = 0 .. d - 1] of [A * i^(j + 1)]: each retirement year's
    expense in the USD total carries one more year of inflation than the
    expense the BTC requirement is computed from. *)
Theorem bitcoin_needed_sums (float_pow : Q -> Q -> Q) (monthly_spending : Q)
  (current_age retirement_age life_expectancy : Z)
  (bitcoin_growth_rate inflation_rate current_holdings monthly_investment
   current_bitcoin_price tax_rate : Q) :
  current_age <= retirement_age -> retirement_age <= life_expectancy ->
  (0 < current_bitcoin_price)%Q -> (0 < 1 + bitcoin_growth_rate / 100)%Q ->
  let y := Z.to_nat (retirement_age - current_age) in
  let d := Z.to_nat (life_expectancy - retirement_age) in
  let i := (1 + inflation_rate / 100)%Q in
  let g := (1 + bitcoin_growth_rate / 100)%Q in
  let A := (monthly_spending * 12 * i ^ Z.of_nat y)%Q in
  exists plan,
    calculate_bitcoin_needed float_pow monthly_spending current_age retirement_age life_expectancy
      bitcoin_growth_rate inflation_rate current_holdings monthly_investment
      current_bitcoin_price tax_rate = Ok plan /\
    (annual_expense_at_retirement plan == A /\
     future_bitcoin_price plan == current_bitcoin_price * g ^ Z.of_nat y /\
     bitcoin_needed plan ==
       qsum (fun j => A * i ^ Z.of_nat j * gross_up tax_rate /
                      (current_bitcoin_price * g ^ Z.of_nat (y + j))) d /\
     total_retirement_expenses plan == qsum (fun j => A * i ^ Z.of_nat (S j)) d)%Q.
Proof.
  intros H1 H2 Hp Hg. cbv zeta.
  set (y := Z.to_nat (retirement_age - current_age)).
  set (d := Z.to_nat (life_expectancy - retirement_age)).
  set (i := (1 + inflation_rate / 100)%Q). set (g := (1 + bitcoin_growth_rate / 100)%Q).
  assert (Ey : retirement_age - current_age = Z.of_nat y) by (subst y; lia).
  assert (Ed : life_expectancy - retirement_age = Z.of_nat d) by (subst d; lia).
  unfold calculate_bitcoin_needed. cbv zeta. fold i g. rewrite Ey, Ed.
  rewrite (py_pow_nonneg i) by lia.
  destruct (total_future_expenses_closed (monthly_spending * 12 * i ^ Z.of_nat y) inflation_rate d)
    as [tot [Htot Htot']].
  simpl bind. rewrite Htot. simpl bind.
  rewrite (py_pow_nonneg g) by lia. simpl bind.
  destruct (calculate_future_value float_pow monthly_investment (Z.of_nat y) (Some bitcoin_growth_rate) None)
    eqn:Efv.
  2: { pose proof (future_value_cases float_pow monthly_investment (Z.of_nat y) (Some bitcoin_growth_rate) None) as F.
       rewrite Efv in F. destruct F as [_ [F|F]]; [lia | discriminate]. }
  2: { pose proof (future_value_cases float_pow monthly_investment (Z.of_nat y) (Some bitcoin_growth_rate) None) as F.
       rewrite Efv in F. contradiction. }
  simpl bind. unfold py_div.
  assert (Hfp : Qeq_bool (current_bitcoin_price * g ^ Z.of_nat y) 0 = false).
  { apply Qeq_bool_false. apply Qnot_eq_sym. apply Qlt_not_eq.
    apply Qmult_lt_0_compat; [exact Hp | now apply qpow_pos]. }
  rewrite Hfp. simpl bind.
  eexists. split; [reflexivity|]. cbn [annual_expense_at_retirement future_bitcoin_price
    bitcoin_needed total_retirement_expenses].
  split; [reflexivity|]. split; [reflexivity|]. split; [|exact Htot'].
  unfold np_arange. replace (Z.of_nat y + Z.of_nat d - Z.of_nat y) with (Z.of_nat d) by lia.
  rewrite Nat2Z.id, !map_map, zip_with_map, np_sum_seq.
  apply qsum_ext. intros j _.
  rewrite <- Nat2Z.inj_add, qpow_add_nat.
  field. split; apply Qnot_eq_sym, Qlt_not_eq; [apply qpow_pos, Hg | exact Hp].
Qed.

Lemma bitcoin_needed_sums_witness :
  exists plan,
    calculate_bitcoin_needed (fun _ _ => 0%Q) 5000 30 60 85 21 5 (1 # 10) 500 60000 15 = Ok plan /\
    (annual_expense_at_retirement plan == 5000 * 12 * (1 + 5 / 100) ^ Z.of_nat 30)%Q.
Proof.
  destruct (bitcoin_needed_sums (fun _ _ => 0%Q) 5000 30 60 85 21 5 (1 # 10) 500 60000 15
              ltac:(lia) ltac:(lia) ltac:(reflexivity) ltac:(reflexivity)) as [plan [H1 [H2 _]]].
  exists plan. split; [exact H1 | exact H2].
Defined.


Lemma nth_map_lt {A B} (f : A -> B) (l : list A) (k : nat) (d : B) (d' : A) :
  (k < length l)%nat -> nth k (map f l) d = f (nth k l d').
Proof.
  intro H. rewrite (nth_indep (map f l) d (f d')) by (now rewrite length_map).
  apply map_nth.
Qed.

Lemma nth_repeat_lt {A} (x d : A) (n k : nat) : (k < n)%nat -> nth k (repeat x n) d = x.
Proof.
  revert k. induction n as [|n IH]; intros k H; [lia|].
  destruct k; simpl; [reflexivity|]. apply IH. lia.
Qed.

Lemma length_zip_with {A B C} (f : A -> B -> C) (a : list A) (b : list B) :
  length (zip_with f a b) = Nat.min (length a) (length b).
Proof.
  revert b. induction a as [|x a IH]; intros [|y b]; simpl; auto.
Qed.

Lemma nth_zip_with {A B C} (f : A -> B -> C) (a : list A) (b : list B) (k : nat)
  (da : A) (db : B) (dc : C) :
  (k < length a)%nat -> (k < length b)%nat ->
  nth k (zip_with f a b) dc = f (nth k a da) (nth k b db).
Proof.
  revert b k. induction a as [|x a IH]; intros [|y b] k Ha Hb; simpl in *; try lia.
  destruct k; [reflexivity|]. apply IH; lia.
Qed.

Lemma length_cumprod_acc (a : Q) (r : list Q) : length (cumprod_acc a r) = length r.
Proof. revert a. induction r as [|x r IH]; intro a; simpl; [reflexivity|]. now rewrite IH. Qed.

Lemma length_cumsum_acc (a : Q) (r : list Q) : length (cumsum_acc a r) = length r.
Proof. revert a. induction r as [|x r IH]; intro a; simpl; [reflexivity|]. now rewrite IH. Qed.

Lemma nth_cumprod_repeat (x a : Q) (n k : nat) : (k < n)%nat ->
  (nth k (cumprod_acc a (repeat x n)) 0 == a * x ^ Z.of_nat (S k))%Q.
Proof.
  revert a k. induction n as [|n IH]; intros a k H; [lia|].
  destruct k as [|k]; simpl.
  - reflexivity.
  - rewrite IH by lia. rewrite (qpow_S x (S k)). ring.
Qed.

(** [np.cumprod(np.r_[1, np.full(n, x)])] is [[x^0, x^1, ..., x^n]]. *)
Lemma nth_cumprod_powers (x : Q) (n k : nat) : (k <= n)%nat ->
  (nth k (np_cumprod (1%Q :: repeat x n)) 0 == x ^ Z.of_nat k)%Q.
Proof.
  intro H. unfold np_cumprod. destruct k as [|k]; cbn [cumprod_acc nth]; [reflexivity|].
  rewrite nth_cumprod_repeat by lia. ring.
Qed.

Lemma qsum_shift (f : nat -> Q) (n : nat) :
  (qsum f (S n) == f O + qsum (fun t => f (S t)) n)%Q.
Proof.
  induction n as [|n IH]; cbn [qsum] in *; [ring|].
  rewrite IH. ring.
Qed.

Lemma nth_cumsum (l : list Q) (acc : Q) (k : nat) : (k < length l)%nat ->
  (nth k (cumsum_acc acc l) 0 == acc + qsum (fun t => nth t l 0) (S k))%Q.
Proof.
  revert acc k. induction l as [|x l IH]; intros acc k H; simpl in H; [lia|].
  destruct k as [|k].
  - simpl. ring.
  - cbn [cumsum_acc nth]. rewrite IH by lia.
    rewrite (qsum_shift (fun t => nth t (x :: l) 0%Q) (S k)). cbn [nth]. ring.
Qed.

Lemma np_maximum_compat (a b : Q) : (a == b)%Q -> (np_maximum a 0 == np_maximum b 0)%Q.
Proof.
  intro H. unfold np_maximum.
  destruct (Qle_bool 0 a) eqn:E1, (Qle_bool 0 b) eqn:E2; qbool; try lra; exact H.
Qed.

Lemma np_maximum_ge (a : Q) : (0 <= np_maximum a 0 /\ a <= np_maximum a 0)%Q.
Proof. unfold np_maximum. destruct (Qle_bool 0 a) eqn:E; qbool; lra. Qed.

Lemma np_full_ok (n : Z) (x : Q) : 0 <= n -> np_full n x = Ok (repeat x (Z.to_nat n)).
Proof. intro H. unfold np_full. now replace (n <? 0) with false by lia. Qed.

Lemma np_binop_eq (f : Q -> Q -> Q) (a b : list Q) :
  length a = length b -> np_binop f a b = Ok (zip_with f a b).
Proof. intro H. unfold np_binop. now rewrite H, Nat.eqb_refl. Qed.


(** The arrays [project_holdings_over_time] builds, when it does not raise. *)
Lemma project_holdings_ok (current_age retirement_age life_expectancy : Z)
  (bitcoin_growth_rate inflation_rate current_holdings monthly_investment monthly_spending
   current_bitcoin_price tax_rate : Q) :
  retirement_age <= life_expectancy -> current_age <= life_expectancy ->
  current_age <= retirement_age \/ ~ (1 + inflation_rate / 100 == 0)%Q ->
  let gm := (1 + bitcoin_growth_rate / 100)%Q in
  let im := (1 + inflation_rate / 100)%Q in
  let pre := Z.max (retirement_age - current_age) 0 in
  let post := life_expectancy - current_age + 1 - pre in
  let A := (monthly_spending * 12 * im ^ (retirement_age - current_age))%Q in
  let prices := map (Qmult current_bitcoin_price)
                  (np_cumprod (1%Q :: repeat gm (Z.to_nat (life_expectancy - current_age)))) in
  let expenses := repeat 0%Q (Z.to_nat pre) ++
                  map (fun f => A * f * gross_up tax_rate)%Q
                      (np_cumprod (1%Q :: repeat im (Z.to_nat (post - 1)))) in
  let investments := repeat (monthly_investment * 12)%Q (Z.to_nat pre) ++
                     repeat 0%Q (Z.to_nat post) in
  project_holdings_over_time current_age retirement_age life_expectancy bitcoin_growth_rate
    inflation_rate current_holdings monthly_investment monthly_spending current_bitcoin_price
    tax_rate =
  Ok (map (fun h => np_maximum h 0)
        (map (Qplus current_holdings)
           (np_cumsum (zip_with Qdiv (zip_with Qminus investments expenses) prices)))) /\
  length investments = Z.to_nat (life_expectancy - current_age + 1) /\
  length expenses = Z.to_nat (life_expectancy - current_age + 1) /\
  length prices = Z.to_nat (life_expectancy - current_age + 1).
Proof.
  intros H1 H2 H3. cbv zeta.
  set (gm := (1 + bitcoin_growth_rate / 100)%Q). set (im := (1 + inflation_rate / 100)%Q).
  assert (Lp : length (map (Qmult current_bitcoin_price)
                 (np_cumprod (1%Q :: repeat gm (Z.to_nat (life_expectancy - current_age)))))
               = Z.to_nat (life_expectancy - current_age + 1)).
  { rewrite length_map. unfold np_cumprod. rewrite length_cumprod_acc. simpl.
    rewrite repeat_length. lia. }
  set (pre := Z.max (retirement_age - current_age) 0).
  set (post := life_expectancy - current_age + 1 - pre).
  assert (Hpost : 1 <= post) by (subst post pre; lia).
  set (A := (monthly_spending * 12 * im ^ (retirement_age - current_age))%Q).
  assert (Le : length (repeat 0%Q (Z.to_nat pre) ++
                 map (fun f => A * f * gross_up tax_rate)%Q
                   (np_cumprod (1%Q :: repeat im (Z.to_nat (post - 1)))))
               = Z.to_nat (life_expectancy - current_age + 1)).
  { rewrite length_app, repeat_length, length_map. unfold np_cumprod.
    rewrite length_cumprod_acc. simpl. rewrite repeat_length. subst post pre. lia. }
  assert (Li : length (repeat (monthly_investment * 12)%Q (Z.to_nat pre) ++ repeat 0%Q (Z.to_nat post))
               = Z.to_nat (life_expectancy - current_age + 1)).
  { rewrite length_app, !repeat_length. subst post pre. lia. }
  split; [|split; [exact Li | split; [exact Le | exact Lp]]].
  unfold project_holdings_over_time.
  replace (retirement_age >? life_expectancy) with false by lia. cbv zeta. fold gm im.
  rewrite np_full_ok by lia. cbn [bind].
  replace (life_expectancy - current_age + 1 - 1) with (life_expectancy - current_age) by lia.
  assert (Epow : py_pow im (retirement_age - current_age) = Ok (im ^ (retirement_age - current_age))%Q).
  { unfold py_pow. destruct H3 as [H3|H3].
    - now replace (retirement_age - current_age <? 0) with false by lia; rewrite andb_false_r.
    - now rewrite (Qeq_bool_false im 0 H3). }
  rewrite Epow. cbn [bind]. fold A pre post.
  rewrite (np_full_ok (Z.max (post - 1) 0)) by lia. cbn [bind].
  replace (Z.max (post - 1) 0) with (post - 1) by lia.
  rewrite !np_full_ok by lia. cbn [bind].
  rewrite np_binop_eq by (rewrite Li, Le; reflexivity). cbn [bind].
  rewrite np_binop_eq.
  - reflexivity.
  - rewrite length_zip_with, Li, Le, Lp. lia.
Qed.


(** The outcomes of [project_holdings_over_time] over [Q]. *)
Lemma project_holdings_cases (current_age retirement_age life_expectancy : Z)
  (bitcoin_growth_rate inflation_rate current_holdings monthly_investment monthly_spending
   current_bitcoin_price tax_rate : Q) :
  match project_holdings_over_time current_age retirement_age life_expectancy bitcoin_growth_rate
    inflation_rate current_holdings monthly_investment monthly_spending current_bitcoin_price
    tax_rate with
  | Ok hs => retirement_age <= life_expectancy /\ current_age <= life_expectancy /\
      ~ (retirement_age < current_age /\ (1 + inflation_rate / 100 == 0)%Q) /\
      length hs = Z.to_nat (life_expectancy - current_age + 1)
  | Raise e =>
      (e = ValueError /\ (life_expectancy < retirement_age \/ life_expectancy < current_age)) \/
      (e = ZeroDivisionError /\ retirement_age < current_age /\ (1 + inflation_rate / 100 == 0)%Q)
  | OutOfFuel => False
  end.
Proof.
  destruct (Z_lt_le_dec life_expectancy retirement_age) as [L1|L1].
  { unfold project_holdings_over_time. replace (retirement_age >? life_expectancy) with true by lia.
    left. split; [reflexivity | now left]. }
  destruct (Z_lt_le_dec life_expectancy current_age) as [L2|L2].
  { unfold project_holdings_over_time. replace (retirement_age >? life_expectancy) with false by lia.
    cbv zeta. unfold np_full at 1.
    replace (life_expectancy - current_age + 1 - 1 <? 0) with true by lia.
    left. split; [reflexivity | now right]. }
  destruct (Z_lt_le_dec retirement_age current_age) as [L3|L3];
    [destruct (Qeq_bool (1 + inflation_rate / 100) 0) eqn:Ei|].
  - qbool. unfold project_holdings_over_time. replace (retirement_age >? life_expectancy) with false by lia.
    cbv zeta. rewrite np_full_ok by lia. cbn [bind]. unfold py_pow.
    replace (retirement_age - current_age <? 0) with true by lia.
    rewrite (proj2 (Qeq_bool_iff _ _) Ei). right. split; [reflexivity | split; assumption].
  - qbool. destruct (project_holdings_ok current_age retirement_age life_expectancy
        bitcoin_growth_rate inflation_rate current_holdings monthly_investment monthly_spending
        current_bitcoin_price tax_rate L1 L2 (or_intror Ei)) as [E [Li [Le Lp]]].
    rewrite E. split; [exact L1|]. split; [exact L2|]. split; [intros [_ C]; contradiction|].
    rewrite !length_map. unfold np_cumsum. rewrite length_cumsum_acc, !length_zip_with, Li, Le, Lp. lia.
  - destruct (project_holdings_ok current_age retirement_age life_expectancy
        bitcoin_growth_rate inflation_rate current_holdings monthly_investment monthly_spending
        current_bitcoin_price tax_rate L1 L2 (or_introl L3)) as [E [Li [Le Lp]]].
    rewrite E. split; [exact L1|]. split; [exact L2|]. split; [lia|].
    rewrite !length_map. unfold np_cumsum. rewrite length_cumsum_acc, !length_zip_with, Li, Le, Lp. lia.
Qed.

(** X10: [project_holdings_over_time] raises [ValueError] when
    [retirement_age > life_expectancy] (its own check), and otherwise when
    [life_expectancy < current_age] ([np.full] with a negative size); past
    both checks, it raises [ZeroDivisionError] when the inflation rate is
    [-100] and the retirement age is below the current age ([0.0 **
    negative]); whenever it returns, it returns one value per age from
    [current_age] to [life_expectancy]. *)
Theorem project_holdings_shape (current_age retirement_age life_expectancy : Z)
  (bitcoin_growth_rate inflation_rate current_holdings monthly_investment monthly_spending
   current_bitcoin_price tax_rate : Q) :
  let r := project_holdings_over_time current_age retirement_age life_expectancy
    bitcoin_growth_rate inflation_rate current_holdings monthly_investment monthly_spending
    current_bitcoin_price tax_rate in
  (life_expectancy < retirement_age -> r = Raise ValueError) /\
  (retirement_age <= life_expectancy -> life_expectancy < current_age -> r = Raise ValueError) /\
  (retirement_age <= life_expectancy -> current_age <= life_expectancy ->
   retirement_age < current_age -> (1 + inflation_rate / 100 == 0)%Q ->
   r = Raise ZeroDivisionError) /\
  (forall hs, r = Ok hs ->
   retirement_age <= life_expectancy /\ current_age <= life_expectancy /\
   length hs = Z.to_nat (life_expectancy - current_age + 1)).
Proof.
  cbv zeta. split; [|split; [|split]].
  - intro L1. unfold project_holdings_over_time.
    replace (retirement_age >? life_expectancy) with true by lia. reflexivity.
  - intros L1 L2. unfold project_holdings_over_time.
    replace (retirement_age >? life_expectancy) with false by lia.
    cbv zeta. unfold np_full at 1.
    replace (life_expectancy - current_age + 1 - 1 <? 0) with true by lia. reflexivity.
  - intros L1 L2 L3 Ei. unfold project_holdings_over_time.
    replace (retirement_age >? life_expectancy) with false by lia.
    cbv zeta. rewrite np_full_ok by lia. cbn [bind]. unfold py_pow.
    replace (retirement_age - current_age <? 0) with true by lia.
    rewrite (proj2 (Qeq_bool_iff _ _) Ei). reflexivity.
  - intros hs Hs.
    pose proof (project_holdings_cases current_age retirement_age life_expectancy
      bitcoin_growth_rate inflation_rate current_holdings monthly_investment monthly_spending
      current_bitcoin_price tax_rate) as C.
    rewrite Hs in C. destruct C as [L1 [L2 [_ Hl]]]. split; [exact L1|]. split; [exact L2 | exact Hl].
Qed.

(** The yearly BTC flow of [project_holdings_over_time] for
    [current_age <= retirement_age]: before retirement the year's
    investment converted at that year's price, from retirement on minus the
    year's grossed-up expense converted at that year's price. *)
Definition holdings_flow (y : nat) (gm im A gross price : Q) (monthly_investment : Q) (t : nat) : Q :=
  if (t <? y)%nat then (monthly_investment * 12 / (price * gm ^ Z.of_nat t))%Q
  else (- (A * im ^ Z.of_nat (t - y) * gross) / (price * gm ^ Z.of_nat t))%Q.

(** For [current_age <= retirement_age <= life_expectancy], a positive
    price and a growth rate above [-100], the entry of
    [project_holdings_over_time] at each index [k] is [max(current_holdings
    + f 0 + ... + f k, 0)], where the flow [f t] is the year's investment
    [monthly_investment * 12] divided by the price [price * g^t] for [t <
    y] ([y] the years until retirement), and minus the grossed-up expense
    [A * i^(t - y) * gross], [A = monthly_spending * 12 * i^y], divided by
    the price from [t = y] on: the floor at [0] is applied to the running
    total, and the entry at the retirement index [y] already has the first
    retirement year's expense deducted. *)
Lemma holdings_running_total (current_age retirement_age life_expectancy : Z)
  (bitcoin_growth_rate inflation_rate current_holdings monthly_investment monthly_spending
   current_bitcoin_price tax_rate : Q) :
  current_age <= retirement_age -> retirement_age <= life_expectancy ->
  (0 < current_bitcoin_price)%Q -> (0 < 1 + bitcoin_growth_rate / 100)%Q ->
  let years := Z.to_nat (life_expectancy - current_age + 1) in
  let y := Z.to_nat (retirement_age - current_age) in
  let gm := (1 + bitcoin_growth_rate / 100)%Q in
  let im := (1 + inflation_rate / 100)%Q in
  let A := (monthly_spending * 12 * im ^ Z.of_nat y)%Q in
  exists hs,
    project_holdings_over_time current_age retirement_age life_expectancy bitcoin_growth_rate
      inflation_rate current_holdings monthly_investment monthly_spending current_bitcoin_price
      tax_rate = Ok hs /\
    length hs = years /\
    forall k, (k < years)%nat ->
      (nth k hs 0 == np_maximum (current_holdings +
         qsum (holdings_flow y gm im A (gross_up tax_rate) current_bitcoin_price monthly_investment)
              (S k)) 0)%Q.
Proof.
  intros H1 H2 Hp Hg. cbv zeta.
  destruct (project_holdings_ok current_age retirement_age life_expectancy
        bitcoin_growth_rate inflation_rate current_holdings monthly_investment monthly_spending
        current_bitcoin_price tax_rate H2 ltac:(lia) (or_introl H1)) as [E [Li [Le Lp]]].
  cbv zeta in E, Li, Le, Lp.
  set (gm := (1 + bitcoin_growth_rate / 100)%Q) in *.
  set (im := (1 + inflation_rate / 100)%Q) in *.
  set (y := Z.to_nat (retirement_age - current_age)).
  set (years := Z.to_nat (life_expectancy - current_age + 1)) in *.
  assert (Epre : Z.max (retirement_age - current_age) 0 = Z.of_nat y) by (subst y; lia).
  rewrite Epre in E, Li, Le. rewrite Nat2Z.id in E, Li, Le.
  replace (retirement_age - current_age) with (Z.of_nat y) in E, Le by (subst y; lia).
  set (A := (monthly_spending * 12 * im ^ Z.of_nat y)%Q) in *.
  set (post := life_expectancy - current_age + 1 - Z.of_nat y) in *.
  set (inv := repeat (monthly_investment * 12)%Q y ++ repeat 0%Q (Z.to_nat post)) in *.
  set (exps := repeat 0%Q y ++ map (fun f => A * f * gross_up tax_rate)%Q
                 (np_cumprod (1%Q :: repeat im (Z.to_nat (post - 1))))) in *.
  set (prices := map (Qmult current_bitcoin_price)
                   (np_cumprod (1%Q :: repeat gm (Z.to_nat (life_expectancy - current_age))))) in *.
  assert (Lc : length (zip_with Qdiv (zip_with Qminus inv exps) prices) = years).
  { rewrite !length_zip_with, Li, Le, Lp. lia. }
  eexists. split; [exact E|]. split.
  { rewrite !length_map. unfold np_cumsum. rewrite length_cumsum_acc. exact Lc. }
  intros k Hk.
  rewrite (nth_map_lt _ _ _ _ 0%Q) by (rewrite length_map; unfold np_cumsum; rewrite length_cumsum_acc; lia).
  rewrite (nth_map_lt _ _ _ _ 0%Q) by (unfold np_cumsum; rewrite length_cumsum_acc; lia).
  apply np_maximum_compat. unfold np_cumsum. rewrite nth_cumsum by lia.
  assert (Hs : (qsum (fun t => nth t (zip_with Qdiv (zip_with Qminus inv exps) prices) 0) (S k) ==
               qsum (holdings_flow y gm im A (gross_up tax_rate) current_bitcoin_price monthly_investment)
                 (S k))%Q).
  { apply qsum_ext. intros t Ht.
    rewrite (nth_zip_with _ _ _ _ 0%Q 0%Q) by (rewrite ?length_zip_with; lia).
    rewrite (nth_zip_with _ _ _ _ 0%Q 0%Q) by lia.
    assert (Hpr : (nth t prices 0 == current_bitcoin_price * gm ^ Z.of_nat t)%Q).
    { subst prices. rewrite (nth_map_lt _ _ _ _ 0%Q).
      - rewrite nth_cumprod_powers by lia. reflexivity.
      - unfold np_cumprod. rewrite length_cumprod_acc. simpl. rewrite repeat_length. lia. }
    rewrite Hpr. unfold holdings_flow.
    destruct (Nat.ltb_spec t y) as [Ty|Ty].
    - subst inv exps. rewrite !app_nth1 by (rewrite repeat_length; lia).
      rewrite !nth_repeat_lt by lia. unfold Qdiv. ring.
    - subst inv exps. rewrite !app_nth2 by (rewrite repeat_length; lia).
      rewrite !repeat_length. rewrite nth_repeat_lt by lia.
      rewrite (nth_map_lt _ _ _ _ 0%Q).
      + rewrite nth_cumprod_powers by lia. unfold Qdiv. ring.
      + unfold np_cumprod. rewrite length_cumprod_acc. simpl. rewrite repeat_length. lia. }
  rewrite Hs. ring.
Qed.


(** X11: for [current_age <= retirement_age <= life_expectancy], a positive
    price and a growth rate above [-100], the entry of
    [project_holdings_over_time] at each index [k] is [max(current_holdings
    + f 0 + ... + f k, 0)], where the flow [f t] is the year's investment
    [monthly_investment * 12] divided by the price [price * g^t] for [t <
    y] ([y] the years until retirement), and minus the grossed-up expense
    [A * i^(t - y) * gross], [A = monthly_spending * 12 * i^y], divided by
    the price from [t = y] on: the floor at [0] is applied to the running
    total only, and the entry at the retirement index [y] already has the
    first retirement year's expense deducted. *)
Theorem project_holdings_running_total (current_age retirement_age life_expectancy : Z)
  (bitcoin_growth_rate inflation_rate current_holdings monthly_investment monthly_spending
   current_bitcoin_price tax_rate : Q) :
  current_age <= retirement_age -> retirement_age <= life_expectancy ->
  (0 < current_bitcoin_price)%Q -> (0 < 1 + bitcoin_growth_rate / 100)%Q ->
  let years := Z.to_nat (life_expectancy - current_age + 1) in
  let y := Z.to_nat (retirement_age - current_age) in
  let gm := (1 + bitcoin_growth_rate / 100)%Q in
  let im := (1 + inflation_rate / 100)%Q in
  let A := (monthly_spending * 12 * im ^ Z.of_nat y)%Q in
  exists hs,
    project_holdings_over_time current_age retirement_age life_expectancy bitcoin_growth_rate
      inflation_rate current_holdings monthly_investment monthly_spending current_bitcoin_price
      tax_rate = Ok hs /\
    length hs = years /\
    forall k, (k < years)%nat ->
      (nth k hs 0 == np_maximum (current_holdings +
         qsum (holdings_flow y gm im A (gross_up tax_rate) current_bitcoin_price monthly_investment)
              (S k)) 0)%Q.
Proof. exact (holdings_running_total current_age retirement_age life_expectancy
  bitcoin_growth_rate inflation_rate current_holdings monthly_investment monthly_spending
  current_bitcoin_price tax_rate). Qed.

Lemma project_holdings_running_total_witness :
  (30 <= 32 /\ 32 <= 34 /\ 0 < 50000 /\ 0 < 1 + 10 / 100)%Q /\
  exists hs,
    project_holdings_over_time 30 32 34 10 3 1 100 1000 50000 20 = Ok hs /\
    length hs = 5%nat /\
    forall k, (k < 5)%nat ->
      (nth k hs 0 == np_maximum (1 +
         qsum (holdings_flow 2 (1 + 10 / 100) (1 + 3 / 100) (1000 * 12 * (1 + 3 / 100) ^ 2)
                 (gross_up 20) 50000 100) (S k)) 0)%Q.
Proof.
  split; [vm_compute; repeat split; discriminate|].
  apply (project_holdings_running_total 30 32 34 10 3 1 100 1000 50000 20);
    [lia | lia | reflexivity | reflexivity].
Defined.

Lemma qsum_le_mono (f : nat -> Q) (n m : nat) :
  (n <= m)%nat -> (forall t, (n <= t < m)%nat -> 0 <= f t)%Q -> (qsum f n <= qsum f m)%Q.
Proof.
  intros H Hf. induction H as [|m H IH]; [apply Qle_refl|].
  cbn [qsum]. assert (0 <= f m)%Q by (apply Hf; lia).
  assert (qsum f n <= qsum f m)%Q by (apply IH; intros; apply Hf; lia). lra.
Qed.

Lemma qsum_le_anti (f : nat -> Q) (n m : nat) :
  (n <= m)%nat -> (forall t, (n <= t < m)%nat -> f t <= 0)%Q -> (qsum f m <= qsum f n)%Q.
Proof.
  intros H Hf. induction H as [|m H IH]; [apply Qle_refl|].
  cbn [qsum]. assert (f m <= 0)%Q by (apply Hf; lia).
  assert (qsum f m <= qsum f n)%Q by (apply IH; intros; apply Hf; lia). lra.
Qed.

Lemma qdiv_nonneg (a b : Q) : (0 <= a -> 0 < b -> 0 <= a / b)%Q.
Proof. intros Ha Hb. apply Qle_shift_div_l; [exact Hb|]. rewrite Qmult_0_l. exact Ha. Qed.

Lemma holdings_flow_sign (y : nat) (gm im A gross price mi : Q) (t : nat) :
  (0 < gm -> 0 < im -> 0 <= A -> 0 < gross -> 0 < price -> 0 <= mi ->
   ((t < y)%nat -> 0 <= holdings_flow y gm im A gross price mi t) /\
   ((y <= t)%nat -> holdings_flow y gm im A gross price mi t <= 0))%Q.
Proof.
  intros Hg Hi HA Hr Hp Hm. unfold holdings_flow.
  assert (Hd : (0 < price * gm ^ Z.of_nat t)%Q) by (apply Qmult_lt_0_compat; [exact Hp | apply qpow_pos, Hg]).
  destruct (Nat.ltb_spec t y) as [T|T]; split; intro C; try lia.
  - apply qdiv_nonneg; [|exact Hd]. lra.
  - assert (0 <= A * im ^ Z.of_nat (t - y) * gross / (price * gm ^ Z.of_nat t))%Q.
    { apply qdiv_nonneg; [|exact Hd].
      apply Qmult_le_0_compat; [apply Qmult_le_0_compat; [exact HA|] | lra].
      apply Qlt_le_weak, qpow_pos, Hi. }
    unfold Qdiv in *.
    setoid_replace (- (A * im ^ Z.of_nat (t - y) * gross) * / (price * gm ^ Z.of_nat t))%Q
      with (- (A * im ^ Z.of_nat (t - y) * gross * / (price * gm ^ Z.of_nat t)))%Q by ring.
    lra.
Qed.

(** X12: with, in addition, a non-negative monthly investment and spending
    and an inflation rate above [-100], the holdings of
    [project_holdings_over_time] never decrease over the indices before
    retirement and never increase from the index before retirement on: for
    [i <= j], [hs[i] <= hs[j]] when [j < y] and [hs[j] <= hs[i]] when [y <=
    i + 1] ([y] the years until retirement), so the peak is at index [y -
    1]. *)
Theorem project_holdings_peak (current_age retirement_age life_expectancy : Z)
  (bitcoin_growth_rate inflation_rate current_holdings monthly_investment monthly_spending
   current_bitcoin_price tax_rate : Q) :
  current_age <= retirement_age -> retirement_age <= life_expectancy ->
  (0 < current_bitcoin_price)%Q -> (0 < 1 + bitcoin_growth_rate / 100)%Q ->
  (0 < 1 + inflation_rate / 100)%Q -> (0 <= monthly_investment)%Q -> (0 <= monthly_spending)%Q ->
  let years := Z.to_nat (life_expectancy - current_age + 1) in
  let y := Z.to_nat (retirement_age - current_age) in
  exists hs,
    project_holdings_over_time current_age retirement_age life_expectancy bitcoin_growth_rate
      inflation_rate current_holdings monthly_investment monthly_spending current_bitcoin_price
      tax_rate = Ok hs /\
    length hs = years /\
    forall i j, (i <= j < years)%nat ->
      ((j < y)%nat -> (nth i hs 0 <= nth j hs 0)%Q) /\
      ((y <= S i)%nat -> (nth j hs 0 <= nth i hs 0)%Q).
Proof.
  intros H1 H2 Hp Hg Hi Hm Hs. cbv zeta.
  destruct (holdings_running_total current_age retirement_age life_expectancy
    bitcoin_growth_rate inflation_rate current_holdings monthly_investment monthly_spending
    current_bitcoin_price tax_rate H1 H2 Hp Hg) as [hs [E [L F]]].
  exists hs. split; [exact E|]. split; [exact L|].
  intros i j [Hij Hj].
  set (y := Z.to_nat (retirement_age - current_age)) in *.
  set (A := (monthly_spending * 12 * (1 + inflation_rate / 100) ^ Z.of_nat y)%Q) in *.
  assert (HA : (0 <= A)%Q).
  { subst A. apply Qmult_le_0_compat; [lra | apply Qlt_le_weak, qpow_pos, Hi]. }
  pose proof (gross_up_pos tax_rate) as Hr.
  rewrite (F i) by lia. rewrite (F j) by lia.
  split; intro C; apply np_maximum_mono; apply Qplus_le_r.
  - apply qsum_le_mono; [lia|]. intros t Ht.
    apply (holdings_flow_sign y _ _ A _ _ _ t Hg Hi HA Hr Hp Hm). lia.
  - apply qsum_le_anti; [lia|]. intros t Ht.
    apply (holdings_flow_sign y _ _ A _ _ _ t Hg Hi HA Hr Hp Hm). lia.
Qed.

Lemma project_holdings_peak_witness :
  (30 <= 32 /\ 32 <= 34 /\ 0 < 50000 /\ 0 < 1 + 10 / 100 /\ 0 < 1 + 3 / 100 /\ 0 <= 100 /\ 0 <= 1000)%Q /\
  exists hs,
    project_holdings_over_time 30 32 34 10 3 1 100 1000 50000 20 = Ok hs /\
    length hs = 5%nat /\
    forall i j, (i <= j < 5)%nat ->
      ((j < 2)%nat -> (nth i hs 0 <= nth j hs 0)%Q) /\
      ((2 <= S i)%nat -> (nth j hs 0 <= nth i hs 0)%Q).
Proof.
  split; [vm_compute; repeat split; discriminate|].
  apply (project_holdings_peak 30 32 34 10 3 1 100 1000 50000 20);
    [lia | lia | reflexivity | reflexivity | reflexivity | discriminate | discriminate].
Defined.


Lemma py_round_near (q : Q) : (q - (1 # 2) <= inject_Z (py_round q) <= q + (1 # 2))%Q.
Proof.
  pose proof (floor_bounds q) as [F1 F2].
  destruct (py_round_spec q) as [[R|R] [R1 R2]].
  - rewrite R. split; [|lra].
    destruct (Qlt_le_dec (1 # 2) (q - inject_Z (Qfloor q))) as [C|C]; [|lra].
    specialize (R2 C). rewrite R in R2. lia.
  - rewrite R. rewrite inject_Z_plus. specialize (R1 R). change (inject_Z 1) with 1%Q. lra.
Qed.

(** X14: [_round_dollars(x)] (step [10]) is within [5] of [x], and it is
    monotone: a larger amount never rounds to fewer dollars. *)
Theorem round_dollars_near_mono (x y : Q) :
  (x - 5 <= inject_Z (round_dollars x) <= x + 5)%Q /\
  ((x <= y)%Q -> round_dollars x <= round_dollars y).
Proof.
  split.
  - unfold round_dollars. rewrite inject_Z_mult.
    pose proof (py_round_near (x / 10)) as [L U].
    change (inject_Z 10) with (10 # 1)%Q. unfold Qdiv in *.
    change (/ 10)%Q with (1 # 10)%Q in *. lra.
  - intro H. unfold round_dollars.
    assert (py_round (x / 10) <= py_round (y / 10)); [|lia].
    apply py_round_mono. unfold Qdiv. change (/ 10)%Q with (1 # 10)%Q. lra.
Qed.

End Calc.

(** * Input validation and call sites ([validation.py], [main.py]) *)

Module Valid.
Import Opt.
Local Open Scope string_scope.

(** ** Python's binding of call arguments to the parameters of a plain
    function (no [*args], no [**kwargs]): more positional arguments than
    parameters, a keyword that names no parameter, a keyword for a parameter
    already given positionally or twice, or a required parameter left
    without a value, is a [TypeError] raised before the body runs.  A
    parameter is a name and its default, [None] when required. *)
Section Call.
Context {A : Type}.

Fixpoint kw_find (kw : list (string * A)) (k : string) : option A :=
  match kw with
  | [] => None
  | (k', v) :: kw' => if String.eqb k k' then Some v else kw_find kw' k
  end.

Fixpoint param_index (params : list (string * option A)) (k : string) : option nat :=
  match params with
  | [] => None
  | (n, _) :: ps =>
      if String.eqb k n then Some 0%nat
      else match param_index ps k with Some i => Some (S i) | None => None end
  end.

Fixpoint nodup_keys (kw : list (string * A)) : bool :=
  match kw with
  | [] => true
  | (k, _) :: kw' => negb (existsb (fun p => String.eqb k (fst p)) kw') && nodup_keys kw'
  end.

Definition kw_ok (params : list (string * option A)) (npos : nat) (kw : list (string * A)) : bool :=
  nodup_keys kw &&
  forallb (fun p => match param_index params (fst p) with
                    | Some i => Nat.leb npos i
                    | None => false
                    end) kw.

Fixpoint fill (params : list (string * option A)) (pos : list A) (kw : list (string * A))
  : Res (list A) :=
  match params, pos with
  | [], _ => Ok []
  | _ :: ps, v :: vs => let* r := fill ps vs kw in Ok (v :: r)
  | (n, d) :: ps, [] =>
      let* v := match kw_find kw n, d with
                | Some v, _ => Ok v
                | None, Some v => Ok v
                | None, None => Raise TypeError
                end in
      let* r := fill ps [] kw in Ok (v :: r)
  end.

Definition bind_args (params : list (string * option A)) (pos : list A) (kw : list (string * A))
  : Res (list A) :=
  if Nat.ltb (length params) (length pos) then Raise TypeError
  else if kw_ok params (length pos) kw then fill params pos kw
  else Raise TypeError.

End Call.

(** ** [validate_inputs] (validation.py, lines 4-36), on numbers. *)

Definition RATE_MIN : Q := 0.
Definition HOLDINGS_MAX : Q := 21000000.

(** [AGE_RANGE[0] <= x <= AGE_RANGE[1]] *)
Definition in_age_range (x : Q) : bool :=
  Qle_bool (inject_Z (fst AGE_RANGE)) x && Qle_bool x (inject_Z (snd AGE_RANGE)).

(** [f"{SPENDING_MIN}"] with [SPENDING_MIN = 1.0] is ["1.0"]. *)
Definition validate_inputs (current_age retirement_age life_expectancy monthly_spending
  bitcoin_growth_rate inflation_rate current_holdings monthly_investment : Q) : list string :=
  ((if negb (in_age_range current_age) then
      [cat ["Current age must be between "; fmt_int (fst AGE_RANGE); " and "; fmt_int (snd AGE_RANGE)]]
    else []) ++
   (if Qle_bool retirement_age current_age || negb (in_age_range retirement_age) then
      [cat ["Retirement age must be greater than current age and between ";
            fmt_int (fst AGE_RANGE); " and "; fmt_int (snd AGE_RANGE)]]
    else []) ++
   (if Qle_bool life_expectancy retirement_age || negb (in_age_range life_expectancy) then
      [cat ["Life expectancy must be greater than retirement age and between ";
            fmt_int (fst AGE_RANGE); " and "; fmt_int (snd AGE_RANGE)]]
    else []) ++
   (if qltb monthly_spending SPENDING_MIN then ["Monthly spending must be at least 1.0"] else []) ++
   (if qltb bitcoin_growth_rate RATE_MIN then ["Bitcoin growth rate cannot be negative"] else []) ++
   (if qltb inflation_rate RATE_MIN then ["Inflation rate cannot be negative"] else []) ++
   (if qltb current_holdings RATE_MIN || qltb HOLDINGS_MAX current_holdings then
      ["Current Bitcoin holdings must be between 0 and 21,000,000"] else []) ++
   (if qltb monthly_investment RATE_MIN then ["Monthly investment cannot be negative"] else []) ++
   (if qltb RATE_MIN bitcoin_growth_rate && Qeq_bool monthly_investment RATE_MIN then
      ["Monthly investment must be positive if growth rate is positive"] else []))%list.

Definition validate_inputs_params : list (string * option PyVal) :=
  map (fun n => (n, None))
    ["current_age"; "retirement_age"; "life_expectancy"; "monthly_spending";
     "bitcoin_growth_rate"; "inflation_rate"; "current_holdings"; "monthly_investment"].

(** A number as an operand of [<], [<=] or [==] against a number; every
    argument of [validate_inputs] is compared with a number (or, for
    [retirement_age] and [life_expectancy], first with the previous age),
    so a string or [None] raises [TypeError] in the body. *)
Definition as_num (v : PyVal) : Res Q :=
  match v with PNum q => Ok q | _ => Raise TypeError end.

(** [validate_inputs] on the bound argument values; [bind_args] has
    checked that there are eight of them. *)
Definition validate_inputs_call (args : list PyVal) : Res (list string) :=
  match args with
  | [a1; a2; a3; a4; a5; a6; a7; a8] =>
      let* ca := as_num a1 in let* ra := as_num a2 in let* le := as_num a3 in
      let* ms := as_num a4 in let* g := as_num a5 in let* infl := as_num a6 in
      let* h := as_num a7 in let* mi := as_num a8 in
      Ok (validate_inputs ca ra le ms g infl h mi)
  | _ => Raise TypeError
  end.

(** [validate_form_inputs] (main.py, lines 689-700): nine subscripts,
    evaluated left to right, then the call with nine positional
    arguments. *)
Definition validate_form_inputs (inputs : Dict) : Res (list string) :=
  let* a1 := getitem inputs "current_age" in
  let* a2 := getitem inputs "retirement_age" in
  let* a3 := getitem inputs "life_expectancy" in
  let* a4 := getitem inputs "monthly_spending" in
  let* a5 := getitem inputs "bitcoin_growth_rate" in
  let* a6 := getitem inputs "inflation_rate" in
  let* a7 := getitem inputs "current_holdings" in
  let* a8 := getitem inputs "monthly_investment" in
  let* a9 := getitem inputs "tax_rate" in
  let* args := bind_args validate_inputs_params [a1; a2; a3; a4; a5; a6; a7; a8; a9] [] in
  validate_inputs_call args.

(** ** [get_bitcoin_price] (utils.py, lines 123-128) and its caller
    [cached_get_bitcoin_price] (main.py, lines 418-430).  The body of
    [get_bitcoin_price] (network requests, retries, sleeps) is left
    abstract: it receives the bound parameter values. *)
Definition DEFAULT_MAX_ATTEMPTS : Q := 3.
Definition DEFAULT_FALLBACK_PRICE : Q := 100000.

Definition get_bitcoin_price_params : list (string * option PyVal) :=
  [("max_attempts", Some (PNum DEFAULT_MAX_ATTEMPTS)); ("base_delay", Some (PNum 2));
   ("fallback_price", Some (PNum DEFAULT_FALLBACK_PRICE)); ("jitter", Some (PNum 0))].

Section Price.
Variable get_bitcoin_price_body : list PyVal -> Res (Q * list string).

Definition get_bitcoin_price (pos : list PyVal) (kw : list (string * PyVal)) : Res (Q * list string) :=
  let* args := bind_args get_bitcoin_price_params pos kw in get_bitcoin_price_body args.

(** [return get_bitcoin_price(quick_fail=quick_fail)]; [st.cache_data]
    stores results only, an exception propagates to the caller. *)
Definition cached_get_bitcoin_price (quick_fail : PyVal) : Res (Q * list string) :=
  get_bitcoin_price [] [("quick_fail", quick_fail)].
End Price.

(** ** The call of [show_progress_visualization] in [render_results]
    (main.py, lines 801-808; the signature in visualization.py, lines
    12-23).  The arguments are evaluated left to right before the call:
    four subscripts of [inputs] and [float(inputs.get("tax_rate", 0.0))].
    The function's body (plotting) is left abstract. *)
Definition show_progress_visualization_params : list (string * option PyVal) :=
  ("holdings", None) ::
  map (fun n => (n, Some PNone))
    ["current_age"; "retirement_age"; "life_expectancy"; "bitcoin_growth_rate";
     "inflation_rate"; "current_holdings"; "monthly_investment"; "monthly_spending";
     "current_bitcoin_price"].

Section Render.
Variable parse_float : string -> option Q.
Variable show_progress_visualization_body : list PyVal -> Res unit.

Definition render_progress_call (holdings_series : PyVal) (inputs : Dict)
  (current_bitcoin_price : Q) : Res unit :=
  let* ca := getitem inputs "current_age" in
  let* ms := getitem inputs "monthly_spending" in
  let* infl := getitem inputs "inflation_rate" in
  let* tax := Opt.py_float parse_float (dict_get inputs "tax_rate" (PNum 0)) in
  let* g := getitem inputs "bitcoin_growth_rate" in
  let* args := bind_args show_progress_visualization_params [holdings_series]
    [("current_age", ca); ("monthly_spending", ms); ("inflation_rate", infl);
     ("tax_rate", PNum tax); ("current_bitcoin_price", PNum current_bitcoin_price);
     ("bitcoin_growth_rate", g)] in
  show_progress_visualization_body args.
End Render.


(** X16: [validate_form_inputs] never returns: it raises [KeyError] when one
    of the nine keys it reads is missing from [inputs], and otherwise
    [TypeError], since it passes nine positional arguments (the ninth being
    [inputs["tax_rate"]]) to [validate_inputs], which takes eight. *)
Theorem validate_form_inputs_never_returns (inputs : Dict) :
  match validate_form_inputs inputs with
  | Ok _ => False
  | Raise e =>
      (e = KeyError /\ exists k, In k ["current_age"; "retirement_age"; "life_expectancy";
          "monthly_spending"; "bitcoin_growth_rate"; "inflation_rate"; "current_holdings";
          "monthly_investment"; "tax_rate"] /\ dict_find inputs k = None) \/
      (e = TypeError /\ forall k, In k ["current_age"; "retirement_age"; "life_expectancy";
          "monthly_spending"; "bitcoin_growth_rate"; "inflation_rate"; "current_holdings";
          "monthly_investment"; "tax_rate"] -> dict_find inputs k <> None)
  | OutOfFuel => False
  end.
Proof.
  unfold validate_form_inputs, getitem.
  repeat match goal with
  | |- context [dict_find inputs ?k] =>
      let E := fresh "E" in destruct (dict_find inputs k) eqn:E; cbn [bind]
  end;
  try match goal with
  | E : dict_find inputs ?k = None |- _ =>
      left; split; [reflexivity|]; exists k; split; [cbn; tauto | exact E]
  end.
  right. split; [reflexivity|]. intros k Hk. cbn in Hk.
  repeat (destruct Hk as [<-|Hk]; [congruence|]). destruct Hk.
Qed.

(** X17: [cached_get_bitcoin_price(quick_fail)] raises [TypeError] for
    every argument, whatever [get_bitcoin_price] would do: it passes the
    keyword [quick_fail], which is not a parameter of [get_bitcoin_price];
    called without arguments, [get_bitcoin_price] runs its body on the
    defaults [(3, 2, 100000, 0)]. *)
Theorem cached_get_bitcoin_price_type_error
  (get_bitcoin_price_body : list PyVal -> Res (Q * list string)) (quick_fail : PyVal) :
  cached_get_bitcoin_price get_bitcoin_price_body quick_fail = Raise TypeError /\
  get_bitcoin_price get_bitcoin_price_body [] [] =
    get_bitcoin_price_body [PNum 3; PNum 2; PNum 100000; PNum 0].
Proof. split; reflexivity. Qed.

(** X18: the call of [show_progress_visualization] in [render_results]
    never returns.  Its arguments are evaluated left to right: a missing
    ["current_age"], ["monthly_spending"] or ["inflation_rate"] raises
    [KeyError]; then [float(inputs.get("tax_rate", 0.0))] raises its own
    exception when it fails; then a missing ["bitcoin_growth_rate"] raises
    [KeyError]; once all arguments are evaluated, the call raises
    [TypeError], since it passes the keyword [tax_rate], which is not a
    parameter of [show_progress_visualization]. *)
Theorem render_progress_call_type_error (parse_float : string -> option Q)
  (body : list PyVal -> Res unit) (holdings_series : PyVal) (inputs : Dict) (price : Q) :
  let tax := Opt.py_float parse_float (dict_get inputs "tax_rate" (PNum 0)) in
  match render_progress_call parse_float body holdings_series inputs price with
  | Ok _ => False
  | Raise e =>
      (e = KeyError /\
       (dict_find inputs "current_age" = None \/ dict_find inputs "monthly_spending" = None \/
        dict_find inputs "inflation_rate" = None \/
        ((forall k, In k ["current_age"; "monthly_spending"; "inflation_rate"] ->
            dict_find inputs k <> None) /\
         (exists t, tax = Ok t) /\ dict_find inputs "bitcoin_growth_rate" = None))) \/
      ((forall k, In k ["current_age"; "monthly_spending"; "inflation_rate"] ->
          dict_find inputs k <> None) /\ tax = Raise e) \/
      (e = TypeError /\
       (forall k, In k ["current_age"; "monthly_spending"; "inflation_rate"; "bitcoin_growth_rate"] ->
          dict_find inputs k <> None) /\ exists t, tax = Ok t)
  | OutOfFuel => False
  end.
Proof.
  cbv zeta. unfold render_progress_call, getitem.
  destruct (dict_find inputs "current_age") eqn:E1; cbn [bind];
    [|left; split; [reflexivity | left; reflexivity]].
  destruct (dict_find inputs "monthly_spending") eqn:E2; cbn [bind];
    [|left; split; [reflexivity | right; left; reflexivity]].
  destruct (dict_find inputs "inflation_rate") eqn:E3; cbn [bind];
    [|left; split; [reflexivity | right; right; left; reflexivity]].
  assert (H3 : forall k, In k ["current_age"; "monthly_spending"; "inflation_rate"] ->
                 dict_find inputs k <> None).
  { intros k Hk. cbn in Hk. destruct Hk as [<-|[<-|[<-|[]]]]; congruence. }
  destruct (Opt.py_float parse_float (dict_get inputs "tax_rate" (PNum 0))) as [t|e|] eqn:Et;
    cbn [bind].
  2: { right; left. split; [exact H3 | reflexivity]. }
  2: { unfold Opt.py_float in Et. destruct (dict_get _ _ _) as [| s' |]; try discriminate.
       destruct (parse_float s'); discriminate. }
  destruct (dict_find inputs "bitcoin_growth_rate") eqn:E4; cbn [bind].
  2: { left. split; [reflexivity|]. right; right; right. split; [exact H3|]. split; [eauto | reflexivity]. }
  match goal with |- context [bind_args ?ps ?pos ?kw] =>
    replace (bind_args ps pos kw) with (Raise TypeError : Res (list PyVal)) by reflexivity end.
  cbn [bind]. right; right. split; [reflexivity|]. split; [|eauto].
  intros k Hk. cbn in Hk. destruct Hk as [<-|[<-|[<-|[<-|[]]]]]; congruence.
Qed.

End Valid.
